(** * CalendarDate: the day-count encoding of Gregorian calendar dates

    A shallow embedding of [src/CalendarDate.ts] (and of the older variant
    [src/unnamed/part_000] where the two differ), followed by the
    properties of the encoding, of the calendar arithmetic and of the ISO
    8601 parser and printer.

    Numbers.  The program computes on JavaScript numbers.  Every number it
    meets on the paths studied here is either [NaN] or an integer far below
    2^53, on which the double operations [+], [-], [*] and [%] are exact.
    A division is always followed at once by [| 0], so the pair is modelled
    as one operation: truncation of the exact quotient followed by the
    32-bit wrap-around of [ToInt32] (the rounded double quotient of two
    integers below 2^53 has the same integer part as the exact one).
    A theorem about a number that the caller chooses states a bound on its
    size, unless the success of a call bounds it already; past 2^53 the
    sums of doubles round and [nadd] no longer describes them.

    Strings.  A JavaScript string is the list of its UTF-16 code units. *)

From Stdlib Require Import ZArith NArith List Bool Lia String Ascii.
Import ListNotations.
Open Scope Z_scope.

(** ** JavaScript numbers *)

Inductive num : Type :=
| NaN
| Int (z : Z).

Definition ToInt32 (z : Z) : Z :=
  let m := z mod 2 ^ 32 in
  if 2 ^ 31 <=? m then m - 2 ^ 32 else m.

Definition nadd (a b : num) : num :=
  match a, b with
  | Int x, Int y => Int (x + y)
  | _, _ => NaN
  end.

Definition nsub (a b : num) : num :=
  match a, b with
  | Int x, Int y => Int (x - y)
  | _, _ => NaN
  end.

Definition nmul (a b : num) : num :=
  match a, b with
  | Int x, Int y => Int (x * y)
  | _, _ => NaN
  end.

(** [a % k] for a non-zero constant [k]: the remainder has the sign of [a]. *)
Definition nrem (a : num) (k : Z) : num :=
  match a with
  | Int x => Int (Z.rem x k)
  | NaN => NaN
  end.

(** [a / k | 0] for a positive constant [k]. *)
Definition quot_or0 (a : num) (k : Z) : num :=
  match a with
  | Int x => Int (ToInt32 (Z.quot x k))
  | NaN => Int 0
  end.

(** [a / 365.25 | 0]; 365.25 is 1461/4, exactly a double. *)
Definition quot365_25_or0 (a : num) : num :=
  match a with
  | Int x => Int (ToInt32 (Z.quot (4 * x) 1461))
  | NaN => Int 0
  end.

(** [a & b] and [a >> k]: both operands go through [ToInt32], NaN as 0. *)
Definition int32_of (a : num) : Z :=
  match a with
  | Int x => ToInt32 x
  | NaN => 0
  end.

Definition band (a b : num) : num := Int (Z.land (int32_of a) (int32_of b)).

Definition sar (a : num) (k : Z) : num := Int (Z.shiftr (int32_of a) k).

(** Comparisons: each is false as soon as one side is NaN. *)
Definition nlt (a b : num) : bool :=
  match a, b with
  | Int x, Int y => x <? y
  | _, _ => false
  end.

Definition nle (a b : num) : bool :=
  match a, b with
  | Int x, Int y => x <=? y
  | _, _ => false
  end.

Definition ngt (a b : num) : bool := nlt b a.

(** [a === b] *)
Definition neqb (a b : num) : bool :=
  match a, b with
  | Int x, Int y => x =? y
  | _, _ => false
  end.

Definition isNaN (a : num) : bool :=
  match a with
  | NaN => true
  | Int _ => false
  end.

(** [Math.max(a, b)] *)
Definition Math_max (a b : num) : num :=
  match a, b with
  | Int x, Int y => Int (Z.max x y)
  | _, _ => NaN
  end.

(** ** JavaScript strings *)

Definition jsstring : Type := list N.

(** A string literal of the source, as code units. *)
Definition js (s : string) : jsstring :=
  List.map N_of_ascii (list_ascii_of_string s).

(** [s.substring(start, stop)] for [0 <= start <= stop]. *)
Definition substring (s : jsstring) (start stop : nat) : jsstring :=
  firstn (stop - start) (skipn start s).

(** [s.charAt(i) === c] for a one-character literal [c]. *)
Definition charAt_is (s : jsstring) (i : nat) (c : N) : bool :=
  match nth_error s i with
  | Some x => N.eqb x c
  | None => false
  end.

(** [s.charCodeAt(i)] is NaN out of bounds. *)
Definition charCodeAt (s : jsstring) (i : num) : num :=
  match i with
  | Int z =>
      if z <? 0 then NaN
      else match nth_error s (Z.to_nat z) with
           | Some c => Int (Z.of_N c)
           | None => NaN
           end
  | NaN => match s with c :: _ => Int (Z.of_N c) | [] => NaN end
  end.

(** [x.repeat(n)] for a one-character string [x]. *)
Definition repeat_char (c : N) (n : Z) : jsstring := List.repeat c (Z.to_nat n).

(** [s.padStart(n, "0")] *)
Definition padStart0 (s : jsstring) (n : nat) : jsstring :=
  List.repeat 48%N (n - List.length s) ++ s.

(** *** Numbers to strings: [String(x)], also the implicit conversion of
    [str + x].  Integers below 10^21 print in plain decimal. *)

Fixpoint digits_fuel (fuel : nat) (n : Z) : jsstring :=
  match fuel with
  | O => []
  | S f =>
      (if n <? 10 then [] else digits_fuel f (n / 10))
        ++ [Z.to_N (48 + n mod 10)]
  end.

Definition decimal (n : Z) : jsstring :=
  digits_fuel (S (Z.to_nat (Z.log2 n))) n.

Definition NumberToString (a : num) : jsstring :=
  match a with
  | NaN => js "NaN"
  | Int z => if z <? 0 then 45%N :: decimal (- z) else decimal z
  end.

(** *** Strings to numbers *)

(** The white space and line terminators that [Number] and [parseInt]
    strip: TAB, LF, VT, FF, CR, SP, NBSP, U+1680, U+2000..U+200A, U+2028,
    U+2029, U+202F, U+205F, U+3000, U+FEFF. *)
Definition isStrWhiteSpaceChar (c : N) : bool :=
  (existsb (N.eqb c)
     [9; 10; 11; 12; 13; 32; 160; 5760; 8232; 8233; 8239; 8287; 12288; 65279]
   || ((8192 <=? c) && (c <=? 8202)))%N.

Fixpoint trimStart (s : jsstring) : jsstring :=
  match s with
  | c :: r => if isStrWhiteSpaceChar c then trimStart r else s
  | [] => []
  end.

Definition trimEnd (s : jsstring) : jsstring := rev (trimStart (rev s)).

Definition trim (s : jsstring) : jsstring := trimEnd (trimStart s).

Definition isDigit (c : N) : bool := ((48 <=? c) && (c <=? 57))%N.

(** Value of a digit in radix 16 (which covers radix 2, 8 and 10). *)
Definition hexval (c : N) : option Z :=
  if isDigit c then Some (Z.of_N c - 48)
  else if ((65 <=? c) && (c <=? 70))%N then Some (Z.of_N c - 55)
  else if ((97 <=? c) && (c <=? 102))%N then Some (Z.of_N c - 87)
  else None.

(** The longest prefix of decimal digits, and what follows it. *)
Fixpoint spanDigits (s : jsstring) : jsstring * jsstring :=
  match s with
  | c :: r =>
      if isDigit c then let (ds, rest) := spanDigits r in (c :: ds, rest)
      else ([], s)
  | [] => ([], [])
  end.

Definition digitsValue (ds : jsstring) : Z :=
  fold_left (fun acc c => 10 * acc + (Z.of_N c - 48)) ds 0.

(** All of [s] as digits of radix [r], or nothing. *)
Fixpoint radixValue (r : Z) (acc : Z) (s : jsstring) : option Z :=
  match s with
  | [] => Some acc
  | c :: rest =>
      match hexval c with
      | Some d => if d <? r then radixValue r (r * acc + d) rest else None
      | None => None
      end
  end.

Definition splitSign (s : jsstring) : Z * jsstring :=
  match s with
  | 43%N :: r => (1, r)
  | 45%N :: r => (-1, r)
  | _ => (1, s)
  end.

(** [parseInt(s, 10)]: leading white space, a sign, then as many digits as
    there are; NaN when there is none.  Exact up to 15 digits, the program
    passes at most 8 characters. *)
Definition parseInt (s : jsstring) : num :=
  let (sg, r) := splitSign (trimStart s) in
  let (ds, _) := spanDigits r in
  match ds with
  | [] => NaN
  | _ :: _ => Int (sg * digitsValue ds)
  end.

(** The exponent after [e] or [E]: a sign and at least one digit, up to the
    end of the string. *)
Definition parseExponent (s : jsstring) : option Z :=
  let (sg, r) := splitSign s in
  let (ds, rest) := spanDigits r in
  match ds, rest with
  | _ :: _, [] => Some (sg * digitsValue ds)
  | _, _ => None
  end.

(** An unsigned decimal literal [ddd], [ddd.ddd], [.ddd], each with an
    optional exponent, as mantissa and power of ten. *)
Definition parseUnsignedDecimal (s : jsstring) : option (Z * Z) :=
  let (ip, r1) := spanDigits s in
  let '(fp, r2) :=
    match r1 with
    | 46%N :: r => spanDigits r
    | _ => ([], r1)
    end in
  match ip ++ fp with
  | [] => None
  | _ :: _ =>
      let m := digitsValue (ip ++ fp) in
      let e := - Z.of_nat (List.length fp) in
      match r2 with
      | [] => Some (m, e)
      | c :: r3 =>
          if (N.eqb c 101 || N.eqb c 69)%bool then
            match parseExponent r3 with
            | Some x => Some (m, x + e)
            | None => None
            end
          else None
      end
  end.

(** The number [m * 10^e] when it is an integer of magnitude at most 2^53;
    nothing for the other doubles (fractions, rounded and infinite values),
    which are outside the fragment modelled by [num]. *)
Definition exactInt (m e : Z) : option num :=
  if m =? 0 then Some (Int 0)
  else if 0 <=? e then
    if e <=? 16 then
      if Z.abs (m * 10 ^ e) <=? 2 ^ 53 then Some (Int (m * 10 ^ e)) else None
    else None
  else
    if m mod 10 ^ (- e) =? 0 then
      if Z.abs (m / 10 ^ (- e)) <=? 2 ^ 53 then Some (Int (m / 10 ^ (- e)))
      else None
    else None.

Definition boundedInt (z : Z) : option num :=
  if z <=? 2 ^ 53 then Some (Int z) else None.

(** A literal with prefix 0x, 0o or 0b and at least one digit. *)
Definition nonDecimalRadix (p : N) : option Z :=
  if (N.eqb p 120 || N.eqb p 88)%bool then Some 16
  else if (N.eqb p 111 || N.eqb p 79)%bool then Some 8
  else if (N.eqb p 98 || N.eqb p 66)%bool then Some 2
  else None.

Definition parseNonDecimal (t : jsstring) : option (option num) :=
  match t with
  | 48%N :: p :: d :: ds =>
      match nonDecimalRadix p with
      | Some r =>
          Some (match radixValue r 0 (d :: ds) with
                | Some z => boundedInt z
                | None => Some NaN
                end)
      | None => None
      end
  | _ => None
  end.

(** [Number(s)] for a string [s] (the StringToNumber grammar): white space
    trimmed at both ends, the empty string is 0, then an unsigned literal
    with prefix 0x, 0o or 0b, or a signed decimal literal or [Infinity];
    everything else is NaN.  [None] stands for a double that is not an
    integer of magnitude at most 2^53.  The sign of zero is dropped, the
    program never observes it. *)
Definition StringToNumber (s : jsstring) : option num :=
  match trim s with
  | [] => Some (Int 0)
  | t =>
      match parseNonDecimal t with
      | Some r => r
      | None =>
          let (sg, r) := splitSign t in
          if list_eq_dec N.eq_dec r (js "Infinity") then None
          else
            match parseUnsignedDecimal r with
            | Some (m, e) => exactInt (sg * m) e
            | None => Some NaN
            end
      end
  end.

(** ** Errors and results *)

Inductive error : Type :=
| DayOutOfRange                     (* "Day out of range." *)
| DateValueOutOfRange (v : num)     (* "Date value (v) out of range." *)
| NonIntegerDateValue               (* "Non-integer date value." *)
| DateStringFormat.                 (* "Date string not in YYYY-MM-DD or YYYYMMDD format" *)

Inductive result (A : Type) : Type :=
| Ok (a : A)
| Throw (e : error).

Arguments Ok {A} a.
Arguments Throw {A} e.

Definition bind {A B : Type} (r : result A) (k : A -> result B) : result B :=
  match r with
  | Ok a => k a
  | Throw e => Throw e
  end.

Notation "x <- r ;; k" := (bind r (fun x => k))
  (at level 61, r at next level, right associativity).

(** ** The lookup tables *)

(** The cumulative number of days in a non-leap year up to the start of a
    month; months are 1-indexed and the entry at index 0 is NaN. *)
Definition MONTH_SUMS_NORMAL_YEAR : list num :=
  [NaN; Int 0; Int 31; Int 59; Int 90; Int 120; Int 151; Int 181; Int 212;
   Int 243; Int 273; Int 304; Int 334].

(** [arr[i]] used as a summand: a missing entry is [undefined], which the
    addition turns into NaN. *)
Definition index (arr : list num) (i : num) : num :=
  match i with
  | Int z => if z <? 0 then NaN else nth (Z.to_nat z) arr NaN
  | NaN => NaN
  end.

(** [(month & 1) === (month >> 3) ? 30 : 31] *)
Definition optimizedDaysInMonth (month : num) : Z :=
  if neqb (band month (Int 1)) (sar month 3) then 30 else 31.

(** ["A".charCodeAt(0) - 1] *)
Definition MONTHS_CHAR_OFFSET : num := nsub (charCodeAt (js "A") (Int 0)) (Int 1).

Definition pre : jsstring := repeat_char 65 31 ++ repeat_char 66 28.

(** ["CDEFGHIJKL".split("").map((x, i) => x.repeat(optimizedDaysInMonth(i + 3))).join("")] *)
Fixpoint map_repeat_from (i : Z) (letters : jsstring) : jsstring :=
  match letters with
  | [] => []
  | x :: rest =>
      repeat_char x (optimizedDaysInMonth (Int (i + 3)))
        ++ map_repeat_from (i + 1) rest
  end.

Definition end_ : jsstring := map_repeat_from 0 (js "CDEFGHIJKL").

Definition NORMAL_YEAR : jsstring := pre ++ end_.

Definition LEAP_YEAR : jsstring := pre ++ js "B" ++ end_.

(** ** The static helpers *)

(** [(year % 4 === 0) && (year % 100 !== 0 || year % 400 === 0)] *)
Definition isLeapYear (year : num) : bool :=
  neqb (nrem year 4) (Int 0)
  && (negb (neqb (nrem year 100) (Int 0)) || neqb (nrem year 400) (Int 0)).

Definition daysInMonth (year month : num) : Z :=
  if neqb month (Int 2) then (if isLeapYear year then 29 else 28)
  else optimizedDaysInMonth month.

(** [year * 365 + ((year + 3) / 4 | 0) - ((year + 99) / 100 | 0) + ((year + 399) / 400 | 0)],
    the expression shared by [tripletToDaysValue] and the [month] getter. *)
Definition yearDays (year : num) : num :=
  nadd (nsub (nadd (nmul year (Int 365)) (quot_or0 (nadd year (Int 3)) 4))
             (quot_or0 (nadd year (Int 99)) 100))
       (quot_or0 (nadd year (Int 399)) 400).

Definition tripletToDaysValue (year month day : num) : result num :=
  if nle day (Int 0) || ngt day (Int (daysInMonth year month)) then
    Throw DayOutOfRange
  else
    let daysValue :=
      nsub (nadd (nadd (yearDays year) (index MONTH_SUMS_NORMAL_YEAR month)) day)
           (Int 1) in
    if isLeapYear year && ngt month (Int 2) then Ok (nadd daysValue (Int 1))
    else Ok daysValue.

(** ** The class *)

(** An instance holds its private [#value]; the constructor only stores
    integers, so the field is a [Z]. *)
Record CalendarDate : Type := { value : Z }.

(** [new CalendarDate(daysValue)] *)
Definition new_CalendarDate (daysValue : num) : result CalendarDate :=
  if nlt daysValue (Int 366) || ngt daysValue (Int 3652424) then
    Throw (DateValueOutOfRange daysValue)
  else
    match daysValue with
    | Int z => Ok {| value := z |}
    | NaN => Throw NonIntegerDateValue
    end.

Definition create (year month day : num) : result CalendarDate :=
  v <- tripletToDaysValue year month day ;; new_CalendarDate v.

Definition year (d : CalendarDate) : num :=
  let centuries := quot_or0 (Int (value d)) 36525 in
  quot365_25_or0 (nsub (nadd (Int (value d)) centuries) (quot_or0 centuries 4)).

Definition month (d : CalendarDate) : num :=
  let y := year d in
  let d0 := yearDays y in
  if isLeapYear y then
    nsub (charCodeAt LEAP_YEAR (nsub (Int (value d)) d0)) MONTHS_CHAR_OFFSET
  else
    nsub (charCodeAt NORMAL_YEAR (nsub (Int (value d)) d0)) MONTHS_CHAR_OFFSET.

Definition day (d : CalendarDate) : result num :=
  v1 <- tripletToDaysValue (year d) (month d) (Int 1) ;;
  Ok (nadd (nsub (Int (value d)) v1) (Int 1)).

Definition dayOfWeek (d : CalendarDate) : Z := Z.rem (value d + 5) 7.

Definition dayOfYear (d : CalendarDate) : result num :=
  v1 <- tripletToDaysValue (year d) (Int 1) (Int 1) ;;
  Ok (nsub (Int (value d)) v1).

(** [month] and [day] are read first, then the three parts are joined. *)
Definition toString (d : CalendarDate) : result jsstring :=
  let m := month d in
  dd <- day d ;;
  Ok (padStart0 (NumberToString (year d)) 4
        ++ (if nlt m (Int 10) then js "-0" else js "-") ++ NumberToString m
        ++ (if nlt dd (Int 10) then js "-0" else js "-") ++ NumberToString dd).

Definition toEpochMs (d : CalendarDate) : Z := (value d - 719528) * 86400000.

Definition addYears (d : CalendarDate) (delta : num) : result CalendarDate :=
  let newYear := nadd (year d) delta in
  if neqb (month d) (Int 2) then
    dd <- day d ;;
    if neqb dd (Int 29) && negb (isLeapYear newYear) then
      create newYear (nadd (month d) (Int 1)) (Int 1)
    else
      dd' <- day d ;; create newYear (month d) dd'
  else
    dd <- day d ;; create newYear (month d) dd.

Definition addMonths (d : CalendarDate) (delta : num) : result CalendarDate :=
  let currentMonths := nsub (nadd (nmul (year d) (Int 12)) (month d)) (Int 1) in
  let newYear := quot_or0 (nadd currentMonths delta) 12 in
  let newMonth := nadd (nrem (nadd currentMonths delta) 12) (Int 1) in
  let maxDay := daysInMonth newYear newMonth in
  dd <- day d ;;
  let overflow := Math_max (Int 0) (nsub dd (Int maxDay)) in
  dd' <- day d ;;
  create newYear newMonth (nsub dd' overflow).

Definition addDays (d : CalendarDate) (delta : num) : result CalendarDate :=
  new_CalendarDate (nadd (Int (value d)) delta).

Definition equals (a b : CalendarDate) : bool := value a =? value b.

Definition isBefore (a b : CalendarDate) : bool := value a <? value b.

Definition isAfter (a b : CalendarDate) : bool := value a >? value b.

(** *** Parsing *)

(** [Number(someString.substring(start, start + len))] *)
Definition extractInt (someString : jsstring) (start len : nat) : option num :=
  StringToNumber (substring someString start (start + len)).

Definition isNaN_opt (a : option num) : bool :=
  match a with
  | Some NaN => true
  | _ => false
  end.

(** [fromString] of [src/CalendarDate.ts].  The format test only asks
    whether a field is NaN; when no field is NaN and one of them is a
    double outside [num], the outcome depends on floating-point rounding
    and the model gives [None]. *)
Definition fromString (str : jsstring) : option (result CalendarDate) :=
  let y := extractInt str 0 4 in
  let '(m, dd) :=
    if (List.length str =? 10)%nat && charAt_is str 4 45 && charAt_is str 7 45
    then (extractInt str 5 2, extractInt str 8 2)
    else if (List.length str =? 8)%nat
    then (extractInt str 4 2, extractInt str 6 2)
    else (Some NaN, Some NaN) in
  if isNaN_opt y || isNaN_opt m || isNaN_opt dd then Some (Throw DateStringFormat)
  else
    match y, m, dd with
    | Some y', Some m', Some d' =>
        Some (v <- tripletToDaysValue y' m' d' ;; new_CalendarDate v)
    | _, _, _ => None
    end.

(** ** The older variant, [src/unnamed/part_000] *)

Module Part000.

(** [parseInt(someString.substring(start, end ?? start + 2), 10)] *)
Definition extractInt (someString : jsstring) (start stop : nat) : num :=
  parseInt (substring someString start stop).

(** The 8-character form is taken only when
    [String(parseInt(str, 10)).padStart(8, "0") === str]. *)
Definition fromString (str : jsstring) : result CalendarDate :=
  let y := extractInt str 0 4 in
  let '(m, dd) :=
    if (List.length str =? 10)%nat && charAt_is str 4 45 && charAt_is str 7 45
    then (extractInt str 5 7, extractInt str 8 10)
    else if (List.length str =? 8)%nat
            && (if list_eq_dec N.eq_dec
                     (padStart0 (NumberToString (parseInt str)) 8) str
                then true else false)
    then (extractInt str 4 6, extractInt str 6 8)
    else (NaN, NaN) in
  if isNaN y || isNaN m || isNaN dd then Throw DateStringFormat
  else v <- tripletToDaysValue y m dd ;; new_CalendarDate v.

Definition toEpochSeconds (d : CalendarDate) : Z := (value d - 719528) * 86400.

End Part000.

(** ** Auxiliary definitions for the proofs *)

(** The ordinal of January 1 of a year, with mathematical (floor)
    division; [yearDays] computes it for the years of the supported range. *)
Definition jan1 (y : Z) : Z :=
  365 * y + (y + 3) / 4 - (y + 99) / 100 + (y + 399) / 400.

(** The [year] getter on plain integers, without the 32-bit wrap. *)
Definition yearZ (v : Z) : Z :=
  4 * (v + v / 36525 - v / 36525 / 4) / 1461.

Definition MIN_VALUE : Z := 366.
Definition MAX_VALUE : Z := 3652424.

Definition valid (d : CalendarDate) : Prop :=
  MIN_VALUE <= value d <= MAX_VALUE.

(** The integers [lo, lo + n). *)
Definition range (lo n : Z) : list Z :=
  List.map (fun i => lo + Z.of_nat i) (seq 0 (Z.to_nat n)).

(** Lengths of years and months by leap flag, and the day-of-year tables. *)
Definition yearLength (leap : bool) : Z := if leap then 366 else 365.

Definition table (leap : bool) : jsstring :=
  if leap then LEAP_YEAR else NORMAL_YEAR.

Definition monthAt (leap : bool) (o : Z) : num :=
  nsub (charCodeAt (table leap) (Int o)) MONTHS_CHAR_OFFSET.

Definition monthLength (leap : bool) (m : Z) : Z :=
  if m =? 2 then (if leap then 29 else 28) else optimizedDaysInMonth (Int m).

(** Day-of-year of the first day of month [m]. *)
Definition monthStart (leap : bool) (m : Z) : Z :=
  match index MONTH_SUMS_NORMAL_YEAR (Int m) with
  | Int s => s + (if leap && (2 <? m) then 1 else 0)
  | NaN => 0
  end.

(** The table entry at day-of-year [o] is a month that contains [o]. *)
Definition offset_ok (leap : bool) (o : Z) : bool :=
  match monthAt leap o with
  | Int m =>
      (1 <=? m) && (m <=? 12) && (monthStart leap m <=? o)
      && (o <? monthStart leap m + monthLength leap m)
  | NaN => false
  end.

(** Day [dd] of month [m] is found again by the table. *)
Definition month_days_ok (leap : bool) (m : Z) : bool :=
  forallb (fun dd => neqb (monthAt leap (monthStart leap m + dd - 1)) (Int m))
          (range 1 (monthLength leap m))
  && (monthStart leap m + monthLength leap m <=? yearLength leap).

(** *** Fixed-width decimal fields, as the ISO 8601 form writes them *)

Definition digit (n : Z) : N := Z.to_N (48 + n).

Definition four_digits (n : Z) : jsstring :=
  [digit (n / 1000); digit (n / 100 mod 10); digit (n / 10 mod 10);
   digit (n mod 10)].

Definition two_digits (n : Z) : jsstring := [digit (n / 10); digit (n mod 10)].

(** YYYY-MM-DD *)
Definition iso (y m dd : Z) : jsstring :=
  four_digits y ++ 45%N :: two_digits m ++ 45%N :: two_digits dd.

(** Ten characters, digits everywhere but for the hyphens at 4 and 7. *)
Definition is_canonical (s : jsstring) : bool :=
  match s with
  | [a; b; c; d; h1; e; f; h2; g; h] =>
      isDigit a && isDigit b && isDigit c && isDigit d && N.eqb h1 45
      && isDigit e && isDigit f && N.eqb h2 45 && isDigit g && isDigit h
  | _ => false
  end.

Definition jsstring_eqb (a b : jsstring) : bool :=
  if list_eq_dec N.eq_dec a b then true else false.

Definition num_eqb (a b : num) : bool :=
  match a, b with
  | NaN, NaN => true
  | Int x, Int y => x =? y
  | _, _ => false
  end.

Definition opt_num_eqb (a : option num) (b : num) : bool :=
  match a with
  | Some x => num_eqb x b
  | None => false
  end.

(** Printing and reading the 2-digit field of [n]. *)
Definition two_digits_ok (n : Z) : bool :=
  jsstring_eqb ((if nlt (Int n) (Int 10) then js "-0" else js "-")
                  ++ NumberToString (Int n))
               (45%N :: two_digits n)
  && opt_num_eqb (StringToNumber (two_digits n)) (Int n)
  && num_eqb (parseInt (two_digits n)) (Int n).

(** YYYYMMDD *)
Definition iso_basic (y m dd : Z) : jsstring :=
  four_digits y ++ two_digits m ++ two_digits dd.

(** The two variants of [fromString] end the same way on a string: both
    build the same date, or both raise. *)
Definition same_outcome (a : option (result CalendarDate))
    (b : result CalendarDate) : Prop :=
  (exists d, a = Some (Ok d) /\ b = Ok d)
  \/ (exists e e', a = Some (Throw e) /\ b = Throw e').


(** ** The class, continued *)

(** [this.month > earlierDate.month ||
     (this.month === earlierDate.month && this.day >= earlierDate.day)],
    then [(this.year - earlierDate.year) - (needOffset ? 0 : 1)]; the days
    are read only when the months are equal. *)
Definition fullYearsSince (d earlierDate : CalendarDate) : result num :=
  needOffset <-
    (if ngt (month d) (month earlierDate) then Ok true
     else if neqb (month d) (month earlierDate) then
       dd <- day d ;; de <- day earlierDate ;; Ok (nle de dd)
     else Ok false) ;;
  Ok (nsub (nsub (year d) (year earlierDate))
           (Int (if needOffset then 0 else 1))).

Definition toJSON (d : CalendarDate) : result jsstring := toString d.

(** *** Instances in a store

    An instance is an object with the private field [#value], declared
    [readonly] and assigned by the constructor alone.  A store lists the
    instances allocated so far and a reference is a position in it:
    [new CalendarDate(v)] adds an instance at the end when the constructor
    returns, and adds nothing when it throws; a method reads [this]. *)
Definition store : Type := list CalendarDate.

Definition ref : Type := nat.

Definition new_in (h : store) (daysValue : num) : result ref * store :=
  match new_CalendarDate daysValue with
  | Ok d => (Ok (List.length h), h ++ [d])
  | Throw e => (Throw e, h)
  end.

(** [this.addDays(delta)], [return new CalendarDate(this.#value + delta)];
    [None] when [this] is not an instance of the store. *)
Definition addDays_in (h : store) (this : ref) (delta : num)
  : option (result ref * store) :=
  match nth_error h this with
  | Some d => Some (new_in h (nadd (Int (value d)) delta))
  | None => None
  end.

(** ** Auxiliary definitions for the further properties *)

(** Calendar order on triples. *)
Definition triple_lt (y1 m1 d1 y2 m2 d2 : Z) : Prop :=
  y1 < y2 \/ (y1 = y2 /\ (m1 < m2 \/ (m1 = m2 /\ d1 < d2))).

(** The day after (y, m, dd) in the calendar. *)
Definition nextDay (y m dd : Z) : Z * Z * Z :=
  if dd <? daysInMonth (Int y) (Int m) then (y, m, dd + 1)
  else if m <? 12 then (y, m + 1, 1)
  else (y + 1, 1, 1).

(** The lengths of the twelve months. *)
Definition monthLengths (leap : bool) : list Z :=
  [31; if leap then 29 else 28; 31; 30; 31; 30; 31; 31; 30; 31; 30; 31].

(** [s.split("-").join("")] *)
Definition removeHyphens (s : jsstring) : jsstring :=
  filter (fun c => negb (N.eqb c 45)) s.

(** [a < b] on strings: the order of the first differing code unit, a
    proper prefix first. *)
Fixpoint string_ltb (a b : jsstring) : bool :=
  match a, b with
  | _, [] => false
  | [], _ :: _ => true
  | x :: a', y :: b' =>
      if (x <? y)%N then true
      else if (y <? x)%N then false
      else string_ltb a' b'
  end.

(** A numeric argument on which the arithmetic of the methods is that of
    the integers: NaN, or an integer within 10^9 of zero, far below 2^53
    where doubles start to round. *)
Definition small (a : num) : Prop :=
  match a with
  | Int z => - 1000000000 <= z <= 1000000000
  | NaN => True
  end.

(** The flat month index of [addMonths]. *)
Definition monthIndex (y m : Z) : Z := y * 12 + (m - 1).
(** ** Arithmetic facts *)

Ltac zdiv := Z.to_euclidean_division_equations; lia.

Lemma ToInt32_small (z : Z) :
  - 2147483648 <= z < 2147483648 -> ToInt32 z = z.
Proof.
  intros H. unfold ToInt32.
  change (2 ^ 32) with 4294967296. change (2 ^ 31) with 2147483648.
  destruct (Z.leb_spec 2147483648 (z mod 4294967296)); zdiv.
Qed.

Lemma ToInt32_range (z : Z) : - 2147483648 <= ToInt32 z < 2147483648.
Proof.
  unfold ToInt32.
  change (2 ^ 32) with 4294967296. change (2 ^ 31) with 2147483648.
  destruct (Z.leb_spec 2147483648 (z mod 4294967296)); zdiv.
Qed.

Lemma quot_nonneg (a b : Z) : 0 <= a -> 0 < b -> Z.quot a b = a / b.
Proof. intros Ha Hb. apply Z.quot_div_nonneg; lia. Qed.

Lemma In_range (lo n z : Z) :
  lo <= z < lo + n -> In z (range lo n).
Proof.
  intros H. unfold range. apply in_map_iff.
  exists (Z.to_nat (z - lo)). split; [lia |].
  apply in_seq. lia.
Qed.

Lemma yearDays_Int (y : Z) :
  0 <= y <= 1000000 -> yearDays (Int y) = Int (jan1 y).
Proof.
  intros H. unfold yearDays, jan1. cbn [nadd nsub nmul quot_or0].
  rewrite !quot_nonneg by lia.
  rewrite !ToInt32_small by zdiv.
  f_equal. lia.
Qed.

(** *** The year formula *)

Lemma year_Int (v : Z) :
  0 <= v <= 100000000 -> year {| value := v |} = Int (yearZ v).
Proof.
  intros H. unfold year, yearZ. cbn [value quot_or0 nadd nsub quot365_25_or0].
  rewrite (quot_nonneg v) by lia.
  rewrite (ToInt32_small (v / 36525)) by zdiv.
  rewrite (quot_nonneg (v / 36525)) by zdiv.
  rewrite (ToInt32_small (v / 36525 / 4)) by zdiv.
  rewrite quot_nonneg by zdiv.
  rewrite ToInt32_small by zdiv.
  reflexivity.
Qed.

Lemma jan1_lower (y : Z) : 1 <= y -> 366 <= jan1 y.
Proof. intros H. unfold jan1. zdiv. Qed.

(** Year [100 m + r] of century block [m]: the Gregorian correction is
    constant on the block and the ordinal of January 1 is linear in [m]. *)
Lemma jan1_in_century (m r : Z) :
  0 <= m -> 1 <= r <= 100 ->
  jan1 (100 * m + r) = 36524 * m + m / 4 + 365 * r + (r + 3) / 4.
Proof.
  intros Hm Hr. unfold jan1.
  replace ((100 * m + r + 3) / 4) with (25 * m + (r + 3) / 4) by zdiv.
  replace ((100 * m + r + 99) / 100) with (m + 1) by zdiv.
  replace ((100 * m + r + 399) / 400) with (m / 4 + 1) by zdiv.
  lia.
Qed.

(** Every day of a year that is not a century year has the century index
    of its block, and decodes to the year. *)
Lemma yearZ_plain_year (m r v : Z) :
  0 <= m <= 99 -> 1 <= r <= 99 ->
  jan1 (100 * m + r) <= v < jan1 (100 * m + r + 1) ->
  yearZ v = 100 * m + r.
Proof.
  intros Hm Hr. rewrite jan1_in_century by lia.
  replace (100 * m + r + 1) with (100 * m + (r + 1)) by lia.
  rewrite jan1_in_century by lia.
  intros Hv. unfold yearZ.
  assert (Ec : v / 36525 = m).
  { symmetry. apply Z.div_unique with (r := v - 36525 * m); zdiv. }
  rewrite Ec. symmetry.
  apply Z.div_unique
    with (r := 4 * (v + m - m / 4) - 1461 * (100 * m + r)); zdiv.
Qed.

(** A century year holds days of two century indices; both decode to it. *)
Lemma yearZ_century_year (c v : Z) :
  1 <= c <= 99 ->
  jan1 (100 * c) <= v < jan1 (100 * c + 1) ->
  yearZ v = 100 * c.
Proof.
  intros Hc.
  replace (100 * c) with (100 * (c - 1) + 100) at 1 by lia.
  rewrite !jan1_in_century by lia.
  intros Hv. unfold yearZ.
  destruct (Z_lt_le_dec v (36525 * c)) as [Hlt | Hge].
  - assert (Ec : v / 36525 = c - 1).
    { symmetry. apply Z.div_unique with (r := v - 36525 * (c - 1)); zdiv. }
    rewrite Ec. symmetry.
    apply Z.div_unique
      with (r := 4 * (v + (c - 1) - (c - 1) / 4) - 1461 * (100 * c)); zdiv.
  - assert (Ec : v / 36525 = c).
    { symmetry. apply Z.div_unique with (r := v - 36525 * c); zdiv. }
    rewrite Ec. symmetry.
    apply Z.div_unique
      with (r := 4 * (v + c - c / 4) - 1461 * (100 * c)); zdiv.
Qed.

(** Every day of year [y] decodes to [y]. *)
Lemma yearZ_in_year (y v : Z) :
  1 <= y <= 9999 -> jan1 y <= v < jan1 (y + 1) -> yearZ v = y.
Proof.
  intros Hy Hv.
  destruct (Z.eq_dec (y mod 100) 0) as [E | E].
  - pose proof (yearZ_century_year (y / 100) v ltac:(zdiv)) as L.
    replace (100 * (y / 100)) with y in L by zdiv. exact (L Hv).
  - pose proof (yearZ_plain_year (y / 100) (y mod 100) v
                  ltac:(zdiv) ltac:(zdiv)) as L.
    replace (100 * (y / 100) + y mod 100) with y in L by zdiv. exact (L Hv).
Qed.

Lemma find_year_upto (n : nat) (v : Z) :
  jan1 1 <= v < jan1 (1 + Z.of_nat n) ->
  exists y, 1 <= y <= Z.of_nat n /\ jan1 y <= v < jan1 (y + 1).
Proof.
  induction n as [| n IH]; intros H.
  - cbn in H. lia.
  - destruct (Z_lt_le_dec v (jan1 (1 + Z.of_nat n))) as [Hlt | Hge].
    + destruct (IH ltac:(lia)) as [y [Hy Hv]]. exists y. split; lia.
    + exists (1 + Z.of_nat n). split; [lia |].
      replace (1 + Z.of_nat n + 1) with (1 + Z.of_nat (S n)) by lia. lia.
Qed.

Lemma find_year (v : Z) :
  MIN_VALUE <= v <= MAX_VALUE ->
  exists y, 1 <= y <= 9999 /\ jan1 y <= v < jan1 (y + 1).
Proof.
  intros H.
  destruct (find_year_upto (Z.to_nat 9999) v) as [y [Hy Hv]].
  - rewrite Z2Nat.id by lia.
    change (jan1 1) with 366. change (jan1 (1 + 9999)) with 3652425.
    unfold MIN_VALUE, MAX_VALUE in H. lia.
  - rewrite Z2Nat.id in Hy by lia. exists y. split; lia.
Qed.

Lemma yearZ_spec (v : Z) :
  MIN_VALUE <= v <= MAX_VALUE ->
  1 <= yearZ v <= 9999 /\ jan1 (yearZ v) <= v < jan1 (yearZ v + 1).
Proof.
  intros H. destruct (find_year v H) as [y [Hy Hv]].
  rewrite (yearZ_in_year y v Hy Hv). split; assumption.
Qed.

(** *** Months and days within a year *)

Lemma isLeapYear_Int (y : Z) :
  isLeapYear (Int y)
  = (Z.rem y 4 =? 0) && (negb (Z.rem y 100 =? 0) || (Z.rem y 400 =? 0)).
Proof. reflexivity. Qed.

Lemma jan1_succ (y : Z) :
  0 <= y -> jan1 (y + 1) = jan1 y + yearLength (isLeapYear (Int y)).
Proof.
  intros H. rewrite isLeapYear_Int. unfold jan1, yearLength.
  destruct (Z.eqb_spec (Z.rem y 4) 0); destruct (Z.eqb_spec (Z.rem y 100) 0);
    destruct (Z.eqb_spec (Z.rem y 400) 0); cbn [andb orb negb]; zdiv.
Qed.

Lemma daysInMonth_Int (y m : Z) :
  daysInMonth (Int y) (Int m) = monthLength (isLeapYear (Int y)) m.
Proof. reflexivity. Qed.

Lemma month_cases (m : Z) :
  1 <= m <= 12 ->
  m = 1 \/ m = 2 \/ m = 3 \/ m = 4 \/ m = 5 \/ m = 6 \/ m = 7 \/ m = 8
  \/ m = 9 \/ m = 10 \/ m = 11 \/ m = 12.
Proof. lia. Qed.

Ltac each_month m H :=
  destruct (month_cases m H) as
    [? | [? | [? | [? | [? | [? | [? | [? | [? | [? | [? | ?]]]]]]]]]]];
  subst m.

Lemma monthLength_bounds (leap : bool) (m : Z) :
  1 <= m <= 12 -> 28 <= monthLength leap m <= 31.
Proof. intros H. each_month m H; destruct leap; cbv; split; congruence. Qed.

Lemma monthStart_bounds (leap : bool) (m : Z) :
  1 <= m <= 12 -> 0 <= monthStart leap m <= 335.
Proof. intros H. each_month m H; destruct leap; cbv; split; congruence. Qed.

(** The encoder on integers, for a month in 1..12. *)
Lemma tripletToDaysValue_Int (y m dd : Z) :
  0 <= y <= 1000000 -> 1 <= m <= 12 ->
  tripletToDaysValue (Int y) (Int m) (Int dd)
  = if (dd <=? 0) || (monthLength (isLeapYear (Int y)) m <? dd)
    then Throw DayOutOfRange
    else Ok (Int (jan1 y + monthStart (isLeapYear (Int y)) m + dd - 1)).
Proof.
  intros Hy Hm. unfold tripletToDaysValue.
  rewrite yearDays_Int by assumption. rewrite daysInMonth_Int.
  cbn [nle ngt nlt].
  destruct ((dd <=? 0) || (monthLength (isLeapYear (Int y)) m <? dd));
    [reflexivity |].
  unfold monthStart.
  each_month m Hm;
    match goal with
    | |- context [index MONTH_SUMS_NORMAL_YEAR (Int ?k)] =>
        let r := eval vm_compute in (index MONTH_SUMS_NORMAL_YEAR (Int k)) in
        change (index MONTH_SUMS_NORMAL_YEAR (Int k)) with r
    end;
    destruct (isLeapYear (Int y));
    cbn [nadd nsub ngt nlt andb Z.ltb Z.compare Pos.compare Pos.compare_cont];
    f_equal; f_equal; lia.
Qed.

Lemma offsets_all :
  forallb (offset_ok false) (range 0 365)
  && forallb (offset_ok true) (range 0 366) = true.
Proof. vm_compute. reflexivity. Qed.

Lemma offset_spec (leap : bool) (o : Z) :
  0 <= o < yearLength leap ->
  exists m, monthAt leap o = Int m /\ 1 <= m <= 12
            /\ monthStart leap m <= o < monthStart leap m + monthLength leap m.
Proof.
  intros H. pose proof offsets_all as Hall. apply andb_prop in Hall.
  destruct Hall as [Hn Hl].
  assert (Hok : offset_ok leap o = true).
  { destruct leap; cbn [yearLength] in H.
    - apply (proj1 (forallb_forall _ _) Hl). apply In_range. lia.
    - apply (proj1 (forallb_forall _ _) Hn). apply In_range. lia. }
  unfold offset_ok in Hok. destruct (monthAt leap o) as [| m]; [discriminate |].
  exists m. split; [reflexivity |].
  repeat (apply andb_prop in Hok; destruct Hok as [Hok ?]). lia.
Qed.

Lemma month_days_all :
  forallb (month_days_ok false) (range 1 12)
  && forallb (month_days_ok true) (range 1 12) = true.
Proof. vm_compute. reflexivity. Qed.

Lemma month_days_spec (leap : bool) (m dd : Z) :
  1 <= m <= 12 -> 1 <= dd <= monthLength leap m ->
  monthAt leap (monthStart leap m + dd - 1) = Int m
  /\ monthStart leap m + monthLength leap m <= yearLength leap.
Proof.
  intros Hm Hd. pose proof month_days_all as Hall. apply andb_prop in Hall.
  destruct Hall as [Hn Hl].
  assert (Hok : month_days_ok leap m = true).
  { destruct leap.
    - apply (proj1 (forallb_forall _ _) Hl). apply In_range. lia.
    - apply (proj1 (forallb_forall _ _) Hn). apply In_range. lia. }
  unfold month_days_ok in Hok. apply andb_prop in Hok. destruct Hok as [Hd' Hlen].
  split; [| lia].
  pose proof (proj1 (forallb_forall _ _) Hd' dd (In_range 1 (monthLength leap m) dd ltac:(lia))) as E.
  cbv beta in E. destruct (monthAt leap (monthStart leap m + dd - 1)) as [| m'].
  - discriminate.
  - cbn in E. f_equal. lia.
Qed.

(** *** The getters on a valid instance *)

Lemma month_eq (v : Z) :
  MIN_VALUE <= v <= MAX_VALUE ->
  month {| value := v |}
  = monthAt (isLeapYear (Int (yearZ v))) (v - jan1 (yearZ v)).
Proof.
  intros H. pose proof (yearZ_spec v H) as [Hy _].
  unfold MIN_VALUE, MAX_VALUE in H.
  unfold month. rewrite year_Int by lia. rewrite yearDays_Int by lia.
  unfold monthAt, table. cbn [value nsub].
  destruct (isLeapYear (Int (yearZ v))); reflexivity.
Qed.

(** What the three getters return on the instance of ordinal [v]. *)
Lemma decode_spec (v : Z) :
  MIN_VALUE <= v <= MAX_VALUE ->
  exists y m dd,
    year {| value := v |} = Int y /\ month {| value := v |} = Int m
    /\ day {| value := v |} = Ok (Int dd)
    /\ 1 <= y <= 9999 /\ 1 <= m <= 12
    /\ 1 <= dd <= monthLength (isLeapYear (Int y)) m
    /\ v = jan1 y + monthStart (isLeapYear (Int y)) m + dd - 1.
Proof.
  intros H. pose proof (yearZ_spec v H) as [Hy Hv].
  set (y := yearZ v) in *. set (leap := isLeapYear (Int y)).
  rewrite jan1_succ in Hv by lia. fold leap in Hv.
  destruct (offset_spec leap (v - jan1 y) ltac:(lia)) as [m [Em [Hm Ho]]].
  exists y, m, (v - jan1 y - monthStart leap m + 1).
  assert (Ey : year {| value := v |} = Int y).
  { unfold MIN_VALUE, MAX_VALUE in H. apply year_Int. lia. }
  assert (Emo : month {| value := v |} = Int m).
  { rewrite month_eq by assumption. exact Em. }
  split; [exact Ey |]. split; [exact Emo |]. split.
  { unfold day. rewrite Ey, Emo.
    rewrite tripletToDaysValue_Int by lia. fold leap.
    pose proof (monthLength_bounds leap m Hm).
    destruct (Z.leb_spec 1 0); [lia |].
    destruct (Z.ltb_spec (monthLength leap m) 1); [lia |].
    cbn. f_equal. f_equal. lia. }
  fold leap. repeat split; lia.
Qed.

(** The getters find again a valid triple from its ordinal. *)
Lemma encode_spec (y m dd : Z) :
  1 <= y <= 9999 -> 1 <= m <= 12 ->
  1 <= dd <= monthLength (isLeapYear (Int y)) m ->
  let v := jan1 y + monthStart (isLeapYear (Int y)) m + dd - 1 in
  MIN_VALUE <= v <= MAX_VALUE
  /\ year {| value := v |} = Int y /\ month {| value := v |} = Int m
  /\ day {| value := v |} = Ok (Int dd).
Proof.
  intros Hy Hm Hd v. set (leap := isLeapYear (Int y)) in *.
  destruct (month_days_spec leap m dd Hm Hd) as [Em Hlen].
  pose proof (monthStart_bounds leap m Hm).
  pose proof (jan1_succ y ltac:(lia)) as Hs. fold leap in Hs.
  assert (Hv : jan1 y <= v < jan1 (y + 1)) by (subst v; lia).
  assert (Hr : MIN_VALUE <= v <= MAX_VALUE).
  { unfold MIN_VALUE, MAX_VALUE. pose proof (jan1_lower y ltac:(lia)).
    assert (jan1 (y + 1) <= jan1 10000) by (unfold jan1; zdiv).
    change (jan1 10000) with 3652425 in *. lia. }
  assert (Eyz : yearZ v = y) by (apply yearZ_in_year; assumption).
  assert (Ey : year {| value := v |} = Int y).
  { unfold MIN_VALUE, MAX_VALUE in Hr. rewrite year_Int by lia. now rewrite Eyz. }
  assert (Emo : month {| value := v |} = Int m).
  { rewrite month_eq by assumption. rewrite Eyz. fold leap.
    replace (v - jan1 y) with (monthStart leap m + dd - 1) by (subst v; lia).
    exact Em. }
  split; [exact Hr |]. split; [exact Ey |]. split; [exact Emo |].
  unfold day. rewrite Ey, Emo.
  rewrite tripletToDaysValue_Int by lia. fold leap.
  pose proof (monthLength_bounds leap m Hm).
  destruct (Z.leb_spec 1 0); [lia |].
  destruct (Z.ltb_spec (monthLength leap m) 1); [lia |].
  cbn. f_equal. f_equal. subst v. lia.
Qed.

(** ** The encoding *)

Lemma new_CalendarDate_Int (v : Z) :
  new_CalendarDate (Int v)
  = if (v <? 366) || (3652424 <? v) then Throw (DateValueOutOfRange (Int v))
    else Ok {| value := v |}.
Proof. reflexivity. Qed.

Lemma new_CalendarDate_valid (v : Z) :
  MIN_VALUE <= v <= MAX_VALUE -> new_CalendarDate (Int v) = Ok {| value := v |}.
Proof.
  unfold MIN_VALUE, MAX_VALUE. intros H. rewrite new_CalendarDate_Int.
  destruct (Z.ltb_spec v 366); [lia |].
  destruct (Z.ltb_spec 3652424 v); [lia | reflexivity].
Qed.

Lemma new_CalendarDate_Ok (a : num) (d : CalendarDate) :
  new_CalendarDate a = Ok d -> a = Int (value d) /\ valid d.
Proof.
  destruct a as [| v]; [discriminate |].
  rewrite new_CalendarDate_Int. unfold valid, MIN_VALUE, MAX_VALUE.
  destruct (Z.ltb_spec v 366); [discriminate |].
  destruct (Z.ltb_spec 3652424 v); [discriminate |].
  cbn. intros E. injection E as <-. cbn. split; [reflexivity | lia].
Qed.

(** Encoding a valid triple of the supported years succeeds. *)
Lemma tripletToDaysValue_valid (y m dd : Z) :
  0 <= y <= 1000000 -> 1 <= m <= 12 ->
  1 <= dd <= monthLength (isLeapYear (Int y)) m ->
  tripletToDaysValue (Int y) (Int m) (Int dd)
  = Ok (Int (jan1 y + monthStart (isLeapYear (Int y)) m + dd - 1)).
Proof.
  intros Hy Hm Hd. rewrite tripletToDaysValue_Int by assumption.
  destruct (Z.leb_spec dd 0); [lia |].
  destruct (Z.ltb_spec (monthLength (isLeapYear (Int y)) m) dd); [lia |].
  reflexivity.
Qed.

(** [create] on a valid triple, and what the getters read from the result. *)
Lemma create_getters (y m dd : Z) :
  1 <= y <= 9999 -> 1 <= m <= 12 ->
  1 <= dd <= monthLength (isLeapYear (Int y)) m ->
  exists d, create (Int y) (Int m) (Int dd) = Ok d /\ valid d
            /\ year d = Int y /\ month d = Int m /\ day d = Ok (Int dd).
Proof.
  intros Hy Hm Hd.
  destruct (encode_spec y m dd Hy Hm Hd) as [Hr [Ey [Em Ed]]].
  eexists. unfold create.
  rewrite tripletToDaysValue_valid by lia. cbn [bind].
  rewrite new_CalendarDate_valid by exact Hr.
  split; [reflexivity |]. split; [exact Hr |].
  split; [exact Ey |]. split; [exact Em | exact Ed].
Qed.

(** C1: the encoding is a bijection between the ordinals 366..3652424 and
    the valid triples.  For every integer v in [366, 3652424], the [year],
    [month] and [day] getters of the CalendarDate of value v read a valid
    triple (month in 1..12, day in 1..daysInMonth(year, month)), and
    encoding that triple again with [tripletToDaysValue] or [create] gives
    back v.  Conversely [create] turns every valid triple of the years
    1..9999 into a date of that range whose getters read the triple. *)
Theorem C1_value_triple_bijection :
  (forall v,
      366 <= v <= 3652424 ->
      exists d y m dd,
        new_CalendarDate (Int v) = Ok d /\ value d = v
        /\ year d = Int y /\ month d = Int m /\ day d = Ok (Int dd)
        /\ 1 <= y <= 9999 /\ 1 <= m <= 12
        /\ 1 <= dd <= daysInMonth (Int y) (Int m)
        /\ tripletToDaysValue (Int y) (Int m) (Int dd) = Ok (Int v)
        /\ create (Int y) (Int m) (Int dd) = Ok d)
  /\ (forall y m dd,
         1 <= y <= 9999 -> 1 <= m <= 12 ->
         1 <= dd <= daysInMonth (Int y) (Int m) ->
         exists d,
           create (Int y) (Int m) (Int dd) = Ok d
           /\ 366 <= value d <= 3652424
           /\ year d = Int y /\ month d = Int m /\ day d = Ok (Int dd)).
Proof.
  split.
  - intros v H.
    destruct (decode_spec v H) as [y [m [dd [Ey [Em [Ed [Hy [Hm [Hd Hv]]]]]]]]].
    exists {| value := v |}, y, m, dd.
    assert (Et : tripletToDaysValue (Int y) (Int m) (Int dd) = Ok (Int v)).
    { rewrite tripletToDaysValue_valid by lia. now rewrite <- Hv. }
    split; [apply new_CalendarDate_valid; exact H |].
    split; [reflexivity |].
    split; [exact Ey |]. split; [exact Em |]. split; [exact Ed |].
    split; [exact Hy |]. split; [exact Hm |].
    split; [rewrite daysInMonth_Int; exact Hd |].
    split; [exact Et |].
    unfold create. rewrite Et. cbn [bind]. apply new_CalendarDate_valid; exact H.
  - intros y m dd Hy Hm Hd. rewrite daysInMonth_Int in Hd.
    destruct (create_getters y m dd Hy Hm Hd) as [d [Ec [Hv Hg]]].
    exists d. split; [exact Ec |]. split; [exact Hv | exact Hg].
Qed.

Lemma C1_value_triple_bijection_witness :
  (exists d y m dd,
      new_CalendarDate (Int 730544) = Ok d /\ value d = 730544
      /\ year d = Int y /\ month d = Int m /\ day d = Ok (Int dd)
      /\ 1 <= y <= 9999 /\ 1 <= m <= 12
      /\ 1 <= dd <= daysInMonth (Int y) (Int m)
      /\ tripletToDaysValue (Int y) (Int m) (Int dd) = Ok (Int 730544)
      /\ create (Int y) (Int m) (Int dd) = Ok d)
  /\ (exists d,
         create (Int 2000) (Int 2) (Int 29) = Ok d
         /\ 366 <= value d <= 3652424
         /\ year d = Int 2000 /\ month d = Int 2 /\ day d = Ok (Int 29)).
Proof.
  split.
  - apply (proj1 C1_value_triple_bijection 730544). lia.
  - apply (proj2 C1_value_triple_bijection 2000 2 29).
    + lia.
    + lia.
    + vm_compute. split; discriminate.
Defined.

(** *** The year formula against the calendar *)

(** The century terms of [yearDays] for any integer year: each is a 32-bit
    integer, and the exact truncated quotient for years of moderate size. *)
Lemma yearDays_any (y : Z) :
  exists a b c,
    yearDays (Int y) = Int (y * 365 + a - b + c)
    /\ - 2147483648 <= a < 2147483648 /\ - 2147483648 <= b < 2147483648
    /\ - 2147483648 <= c < 2147483648
    /\ (- 1000000000 <= y <= 1000000000 ->
        a = Z.quot (y + 3) 4 /\ b = Z.quot (y + 99) 100
        /\ c = Z.quot (y + 399) 400).
Proof.
  exists (ToInt32 (Z.quot (y + 3) 4)), (ToInt32 (Z.quot (y + 99) 100)),
    (ToInt32 (Z.quot (y + 399) 400)).
  split; [reflexivity |].
  split; [apply ToInt32_range |]. split; [apply ToInt32_range |].
  split; [apply ToInt32_range |].
  intros H. rewrite !ToInt32_small by zdiv. auto.
Qed.

(** The first and last ordinals of a year, when the encoder returns them,
    are the year's base and at most 365 more. *)
Lemma year_span (y lo hi : Z) :
  tripletToDaysValue (Int y) (Int 1) (Int 1) = Ok (Int lo) ->
  tripletToDaysValue (Int y) (Int 12) (Int 31) = Ok (Int hi) ->
  exists b, yearDays (Int y) = Int b /\ lo = b
            /\ hi = b + 364 + (if isLeapYear (Int y) then 1 else 0).
Proof.
  unfold tripletToDaysValue.
  destruct (yearDays_any y) as [a [b [c [E _]]]]. rewrite E.
  cbn [nle ngt nlt orb].
  destruct (isLeapYear (Int y)); cbn; intros E1 E2;
    injection E1 as <-; injection E2 as <-; eexists;
    (split; [reflexivity | split; lia]).
Qed.

(** C2: for every ordinal v in [366, 3652424] the closed form
    centuries = floor(v / 36525),
    year = floor((v + centuries - floor(centuries / 4)) / 365.25)
    is what the [year] getter returns, and it is the calendar year of v:
    the one year y with ordinal(y, 1, 1) <= v <= ordinal(y, 12, 31). *)
Theorem C2_year_formula_exact (v : Z) :
  366 <= v <= 3652424 ->
  exists y lo hi,
    year {| value := v |} = Int y /\ y = yearZ v
    /\ tripletToDaysValue (Int y) (Int 1) (Int 1) = Ok (Int lo)
    /\ tripletToDaysValue (Int y) (Int 12) (Int 31) = Ok (Int hi)
    /\ lo <= v <= hi
    /\ forall y' lo' hi',
         tripletToDaysValue (Int y') (Int 1) (Int 1) = Ok (Int lo') ->
         tripletToDaysValue (Int y') (Int 12) (Int 31) = Ok (Int hi') ->
         lo' <= v <= hi' -> y' = y.
Proof.
  intros H. pose proof (yearZ_spec v H) as [Hy Hv].
  set (y := yearZ v) in *.
  pose proof (jan1_succ y ltac:(lia)) as Hs.
  exists y, (jan1 y), (jan1 y + 364 + (if isLeapYear (Int y) then 1 else 0)).
  split; [apply year_Int; lia |]. split; [reflexivity |].
  pose proof (monthLength_bounds (isLeapYear (Int y)) 1 ltac:(lia)) as Hjan.
  assert (Hdec : monthLength (isLeapYear (Int y)) 12 = 31)
    by (destruct (isLeapYear (Int y)); reflexivity).
  assert (Hs1 : monthStart (isLeapYear (Int y)) 1 = 0)
    by (destruct (isLeapYear (Int y)); reflexivity).
  assert (Hs12 : monthStart (isLeapYear (Int y)) 12
                 = 334 + (if isLeapYear (Int y) then 1 else 0))
    by (destruct (isLeapYear (Int y)); reflexivity).
  split.
  { rewrite tripletToDaysValue_valid by lia. f_equal. f_equal. lia. }
  split.
  { rewrite tripletToDaysValue_valid by lia. f_equal. f_equal. lia. }
  split.
  { unfold yearLength in Hs. destruct (isLeapYear (Int y)); lia. }
  intros y' lo' hi' E1 E2 Hv'.
  destruct (year_span y' lo' hi' E1 E2) as [b [Eb [-> ->]]].
  destruct (yearDays_any y') as [a' [b' [c' [E [Ha [Hb [Hc Hq]]]]]]].
  rewrite E in Eb. injection Eb as Eb.
  assert (Hy' : 1 <= y' <= 9999).
  { destruct (Z_le_gt_dec (- 1000000000) y') as [Hl | Hl];
      [| destruct (isLeapYear (Int y')); lia].
    destruct (Z_le_gt_dec y' 1000000000) as [Hu | Hu];
      [| destruct (isLeapYear (Int y')); lia].
    destruct (Hq ltac:(lia)) as [-> [-> ->]].
    destruct (isLeapYear (Int y')); zdiv. }
  pose proof (yearDays_Int y' ltac:(lia)) as Ej. rewrite E in Ej.
  injection Ej as Ej. rewrite Ej in Eb. subst b.
  pose proof (jan1_succ y' ltac:(lia)) as Hs'. unfold yearLength in Hs'.
  symmetry. apply yearZ_in_year; [exact Hy' |].
  destruct (isLeapYear (Int y')); lia.
Qed.

Lemma C2_year_formula_exact_witness :
  exists y lo hi,
    year {| value := 3652424 |} = Int y /\ y = yearZ 3652424
    /\ tripletToDaysValue (Int y) (Int 1) (Int 1) = Ok (Int lo)
    /\ tripletToDaysValue (Int y) (Int 12) (Int 31) = Ok (Int hi)
    /\ lo <= 3652424 <= hi
    /\ forall y' lo' hi',
         tripletToDaysValue (Int y') (Int 1) (Int 1) = Ok (Int lo') ->
         tripletToDaysValue (Int y') (Int 12) (Int 31) = Ok (Int hi') ->
         lo' <= 3652424 <= hi' -> y' = y.
Proof. apply (C2_year_formula_exact 3652424). lia. Defined.

(** C10: for every valid ordinal v the index [v - d] that the [month]
    getter passes to [charCodeAt] lies in [0, 364] in a normal year and in
    [0, 365] in a leap year, inside the 365-character NORMAL_YEAR or the
    366-character LEAP_YEAR, and the code read there is a letter A..L, so
    the month returned is in 1..12. *)
Theorem C10_month_lookup_in_bounds (v : Z) :
  366 <= v <= 3652424 ->
  List.length NORMAL_YEAR = 365%nat /\ List.length LEAP_YEAR = 366%nat
  /\ exists y d0 c,
       year {| value := v |} = Int y /\ yearDays (Int y) = Int d0
       /\ 0 <= v - d0 <= (if isLeapYear (Int y) then 365 else 364)
       /\ v - d0
          < Z.of_nat (List.length
                        (if isLeapYear (Int y) then LEAP_YEAR else NORMAL_YEAR))
       /\ charCodeAt (if isLeapYear (Int y) then LEAP_YEAR else NORMAL_YEAR)
                     (Int (v - d0)) = Int c
       /\ 65 <= c <= 76
       /\ month {| value := v |} = Int (c - 64).
Proof.
  intros H. split; [reflexivity |]. split; [reflexivity |].
  pose proof (yearZ_spec v H) as [Hy Hv].
  pose proof (month_eq v H) as Emo.
  set (y := yearZ v) in *.
  rewrite jan1_succ in Hv by lia.
  destruct (offset_spec (isLeapYear (Int y)) (v - jan1 y) ltac:(lia))
    as [m [Em [Hm Ho]]].
  exists y, (jan1 y), (m + 64).
  split; [apply year_Int; lia |].
  split; [apply yearDays_Int; lia |].
  rewrite Emo. clear Emo.
  revert Hv Em Ho. generalize (isLeapYear (Int y)). intros leap Hv Em Ho.
  assert (Ec : charCodeAt (table leap) (Int (v - jan1 y)) = Int (m + 64)).
  { unfold monthAt in Em. change MONTHS_CHAR_OFFSET with (Int 64) in Em.
    destruct (charCodeAt (table leap) (Int (v - jan1 y))) as [| c];
      [discriminate |].
    cbn in Em. injection Em as Em. f_equal. lia. }
  split; [destruct leap; cbn [yearLength] in Hv; lia |].
  split.
  { destruct leap; cbn [yearLength] in Hv;
      [change (List.length LEAP_YEAR) with (Z.to_nat 366)
      | change (List.length NORMAL_YEAR) with (Z.to_nat 365)];
      rewrite Z2Nat.id; lia. }
  split; [exact Ec |]. split; [lia |].
  rewrite Em. f_equal. lia.
Qed.

Lemma C10_month_lookup_in_bounds_witness :
  List.length NORMAL_YEAR = 365%nat /\ List.length LEAP_YEAR = 366%nat
  /\ exists y d0 c,
       year {| value := 730850 |} = Int y /\ yearDays (Int y) = Int d0
       /\ 0 <= 730850 - d0 <= (if isLeapYear (Int y) then 365 else 364)
       /\ 730850 - d0
          < Z.of_nat (List.length
                        (if isLeapYear (Int y) then LEAP_YEAR else NORMAL_YEAR))
       /\ charCodeAt (if isLeapYear (Int y) then LEAP_YEAR else NORMAL_YEAR)
                     (Int (730850 - d0)) = Int c
       /\ 65 <= c <= 76
       /\ month {| value := 730850 |} = Int (c - 64).
Proof. apply (C10_month_lookup_in_bounds 730850). lia. Defined.

(** ** Calendar arithmetic *)

(** C5: [addDays(n)] on a valid date, for every integer n, is the raw
    constructor applied to value + n: the date of that ordinal when it lies
    in [366, 3652424], the constructor's out-of-range error otherwise,
    never a value clamped to a boundary.  The integer n is a safe integer
    of JavaScript, with value + n a safe integer too (at most 2^53 - 1 in
    size), where the addition of doubles is exact.  In a store of
    instances the call allocates the new date when it returns and nothing
    when it throws, and in both cases the receiver and every other
    instance are what they were before the call. *)
Theorem C5_addDays_revalidates
    (h : store) (this : ref) (d : CalendarDate) (n : Z) :
  valid d -> nth_error h this = Some d ->
  - 9007199254740991 <= n -> value d + n <= 9007199254740991 ->
  addDays d (Int n) = new_CalendarDate (Int (value d + n))
  /\ (366 <= value d + n <= 3652424 ->
      addDays d (Int n) = Ok {| value := value d + n |})
  /\ (value d + n < 366 \/ 3652424 < value d + n ->
      addDays d (Int n) = Throw (DateValueOutOfRange (Int (value d + n))))
  /\ exists r h',
       addDays_in h this (Int n) = Some (r, h')
       /\ nth_error h' this = Some d
       /\ (forall o x, nth_error h o = Some x -> nth_error h' o = Some x)
       /\ match addDays d (Int n) with
          | Ok d' =>
              exists o, r = Ok o /\ nth_error h o = None
                        /\ nth_error h' o = Some d'
                        /\ List.length h' = S (List.length h)
          | Throw e => r = Throw e /\ h' = h
          end.
Proof.
  intros _ Hthis _ _. unfold addDays, addDays_in, new_in. rewrite Hthis.
  cbn [nadd]. rewrite new_CalendarDate_Int.
  split; [reflexivity |].
  split; [| split].
  - destruct (Z.ltb_spec (value d + n) 366);
      destruct (Z.ltb_spec 3652424 (value d + n)); cbn [orb];
      intros; try reflexivity; lia.
  - destruct (Z.ltb_spec (value d + n) 366);
      destruct (Z.ltb_spec 3652424 (value d + n)); cbn [orb];
      intros; try reflexivity; lia.
  - destruct ((value d + n <? 366) || (3652424 <? value d + n)).
    + exists (Throw (DateValueOutOfRange (Int (value d + n)))), h.
      split; [reflexivity |]. split; [exact Hthis |].
      split; [intros o x Ho; exact Ho |]. split; reflexivity.
    + assert (Hkeep : forall o x, nth_error h o = Some x ->
                  nth_error (h ++ [{| value := value d + n |}]) o = Some x).
      { intros o x Ho. rewrite nth_error_app1; [exact Ho |].
        apply nth_error_Some. rewrite Ho. discriminate. }
      exists (Ok (List.length h)), (h ++ [{| value := value d + n |}]).
      split; [reflexivity |]. split; [exact (Hkeep this d Hthis) |].
      split; [exact Hkeep |].
      exists (List.length h). split; [reflexivity |].
      split; [apply nth_error_None; lia |].
      split.
      * rewrite nth_error_app2 by lia. rewrite Nat.sub_diag. reflexivity.
      * rewrite length_app. cbn [List.length]. lia.
Qed.

Lemma C5_addDays_revalidates_witness :
  addDays {| value := 3652424 |} (Int 1)
  = new_CalendarDate (Int (value {| value := 3652424 |} + 1))
  /\ (366 <= value {| value := 3652424 |} + 1 <= 3652424 ->
      addDays {| value := 3652424 |} (Int 1)
      = Ok {| value := value {| value := 3652424 |} + 1 |})
  /\ (value {| value := 3652424 |} + 1 < 366
      \/ 3652424 < value {| value := 3652424 |} + 1 ->
      addDays {| value := 3652424 |} (Int 1)
      = Throw (DateValueOutOfRange
                 (Int (value {| value := 3652424 |} + 1))))
  /\ exists r h',
       addDays_in [{| value := 3652424 |}] 0%nat (Int 1) = Some (r, h')
       /\ nth_error h' 0%nat = Some {| value := 3652424 |}
       /\ (forall o x, nth_error [{| value := 3652424 |}] o = Some x ->
                       nth_error h' o = Some x)
       /\ match addDays {| value := 3652424 |} (Int 1) with
          | Ok d' =>
              exists o, r = Ok o
                        /\ nth_error [{| value := 3652424 |}] o = None
                        /\ nth_error h' o = Some d'
                        /\ List.length h'
                           = S (List.length [{| value := 3652424 |}])
          | Throw e => r = Throw e /\ h' = [{| value := 3652424 |}]
          end.
Proof.
  apply (C5_addDays_revalidates
           [{| value := 3652424 |}] 0%nat {| value := 3652424 |} 1).
  - unfold valid, MIN_VALUE, MAX_VALUE. cbn [value]. lia.
  - reflexivity.
  - lia.
  - cbn [value]. lia.
Defined.

(** C9: [toEpochMs] is (value - 719528) * 86400000 and [toEpochSeconds]
    (value - 719528) * 86400, where 719528 is the ordinal of 1970-01-01;
    1970-01-01 maps to 0, 1970-01-02 to 86400000 ms and 1969-12-31 to
    -86400000 ms. *)
Theorem C9_epoch_conversion :
  (forall d, toEpochMs d = (value d - 719528) * 86400000
             /\ Part000.toEpochSeconds d = (value d - 719528) * 86400)
  /\ create (Int 1970) (Int 1) (Int 1) = Ok {| value := 719528 |}
  /\ (exists d, fromString (js "1970-01-01") = Some (Ok d)
                /\ toEpochMs d = 0 /\ Part000.toEpochSeconds d = 0)
  /\ (exists d, fromString (js "1970-01-02") = Some (Ok d)
                /\ toEpochMs d = 86400000 /\ Part000.toEpochSeconds d = 86400)
  /\ (exists d, fromString (js "1969-12-31") = Some (Ok d)
                /\ toEpochMs d = - 86400000
                /\ Part000.toEpochSeconds d = - 86400).
Proof.
  split; [intros d; split; reflexivity |].
  split; [vm_compute; reflexivity |].
  split; [| split]; eexists;
    (split; [vm_compute; reflexivity |
             split; [vm_compute; reflexivity | vm_compute; reflexivity]]).
Qed.

(** The getters of a valid date read one triple only. *)
Lemma getters_valid (d : CalendarDate) (y m dd : Z) :
  valid d -> year d = Int y -> month d = Int m -> day d = Ok (Int dd) ->
  1 <= y <= 9999 /\ 1 <= m <= 12
  /\ 1 <= dd <= monthLength (isLeapYear (Int y)) m.
Proof.
  destruct d as [v]. unfold valid. cbn [value]. intros H Ey Em Ed.
  destruct (decode_spec v H) as [y0 [m0 [d0 [Ey0 [Em0 [Ed0 Hrest]]]]]].
  rewrite Ey in Ey0. rewrite Em in Em0. rewrite Ed in Ed0.
  injection Ey0 as ->. injection Em0 as ->. injection Ed0 as ->.
  tauto.
Qed.

Lemma monthLength_not_feb (l1 l2 : bool) (m : Z) :
  m <> 2 -> monthLength l1 m = monthLength l2 m.
Proof.
  intros H. unfold monthLength. destruct (Z.eqb_spec m 2); [lia | reflexivity].
Qed.

Lemma monthLength_feb (leap : bool) :
  monthLength leap 2 = if leap then 29 else 28.
Proof. reflexivity. Qed.

(** C4: [addYears(n)] on a valid date whose new year y + n is in 1..9999
    returns the date of year y + n with the same month and day, except
    that February 29 moved to a non-leap year becomes March 1 of that
    year; 2000-02-29 plus 1 year is 2001-03-01 and plus 4 years is
    2004-02-29. *)
Theorem C4_addYears_policy :
  (forall d n y m dd,
      valid d -> year d = Int y -> month d = Int m -> day d = Ok (Int dd) ->
      1 <= y + n <= 9999 ->
      exists d',
        addYears d (Int n) = Ok d' /\ valid d' /\ year d' = Int (y + n)
        /\ (if (m =? 2) && (dd =? 29) && negb (isLeapYear (Int (y + n)))
            then month d' = Int 3 /\ day d' = Ok (Int 1)
            else month d' = Int m /\ day d' = Ok (Int dd)))
  /\ (exists d d',
         fromString (js "2000-02-29") = Some (Ok d)
         /\ addYears d (Int 1) = Ok d'
         /\ toString d' = Ok (js "2001-03-01"))
  /\ (exists d d',
         fromString (js "2000-02-29") = Some (Ok d)
         /\ addYears d (Int 4) = Ok d'
         /\ toString d' = Ok (js "2004-02-29")).
Proof.
  split.
  - intros d n y m dd Hv Ey Em Ed Hn.
    destruct (getters_valid d y m dd Hv Ey Em Ed) as [Hy [Hm Hd]].
    unfold addYears. rewrite Ey, Em, Ed. cbn [nadd neqb bind].
    destruct (Z.eqb_spec m 2) as [-> | Hm2].
    + rewrite monthLength_feb in Hd.
      destruct (Z.eqb_spec dd 29) as [-> | Hd29];
        destruct (isLeapYear (Int (y + n))) eqn:El; cbn [andb negb].
      * destruct (create_getters (y + n) 2 29 Hn ltac:(lia)) as [d' Hd'].
        { rewrite El, monthLength_feb. lia. }
        exists d'. tauto.
      * destruct (create_getters (y + n) 3 1 Hn ltac:(lia)) as [d' Hd'].
        { rewrite El. cbv. split; congruence. }
        exists d'. tauto.
      * destruct (create_getters (y + n) 2 dd Hn ltac:(lia)) as [d' Hd'].
        { rewrite El, monthLength_feb. destruct (isLeapYear (Int y)); lia. }
        exists d'. tauto.
      * destruct (create_getters (y + n) 2 dd Hn ltac:(lia)) as [d' Hd'].
        { rewrite El, monthLength_feb. destruct (isLeapYear (Int y)); lia. }
        exists d'. tauto.
    + cbn [andb].
      destruct (create_getters (y + n) m dd Hn Hm) as [d' Hd'].
      { rewrite (monthLength_not_feb _ (isLeapYear (Int y)) m Hm2). exact Hd. }
      exists d'. tauto.
  - split; eexists; eexists;
      (split; [vm_compute; reflexivity |
               split; [vm_compute; reflexivity | vm_compute; reflexivity]]).
Qed.

Lemma C4_addYears_policy_witness :
  exists d',
    addYears {| value := 730544 |} (Int (- 100)) = Ok d' /\ valid d'
    /\ year d' = Int (2000 + - 100)
    /\ (if (2 =? 2) && (29 =? 29) && negb (isLeapYear (Int (2000 + - 100)))
        then month d' = Int 3 /\ day d' = Ok (Int 1)
        else month d' = Int 2 /\ day d' = Ok (Int 29)).
Proof.
  apply (proj1 C4_addYears_policy {| value := 730544 |} (- 100) 2000 2 29).
  - unfold valid, MIN_VALUE, MAX_VALUE. cbn [value]. lia.
  - vm_compute. reflexivity.
  - vm_compute. reflexivity.
  - vm_compute. reflexivity.
  - lia.
Defined.

(** C3: [addMonths(n)] on a valid date takes the flat month index
    year * 12 + (month - 1), adds n, splits the sum by floor division and
    modulo 12 into the new year and month, and keeps the day or clamps it
    to the length of the new month, whenever the new year is in 1..9999;
    2000-12-31 plus 2 months is 2001-02-28 and plus 4 months is
    2001-04-30. *)
Theorem C3_addMonths_clamps :
  (forall d n y m dd,
      valid d -> year d = Int y -> month d = Int m -> day d = Ok (Int dd) ->
      1 <= (y * 12 + (m - 1) + n) / 12 <= 9999 ->
      exists d',
        addMonths d (Int n) = Ok d' /\ valid d'
        /\ year d' = Int ((y * 12 + (m - 1) + n) / 12)
        /\ month d' = Int ((y * 12 + (m - 1) + n) mod 12 + 1)
        /\ day d'
           = Ok (Int (Z.min dd
                        (daysInMonth (Int ((y * 12 + (m - 1) + n) / 12))
                           (Int ((y * 12 + (m - 1) + n) mod 12 + 1))))))
  /\ (exists d d',
         fromString (js "2000-12-31") = Some (Ok d)
         /\ addMonths d (Int 2) = Ok d'
         /\ toString d' = Ok (js "2001-02-28"))
  /\ (exists d d',
         fromString (js "2000-12-31") = Some (Ok d)
         /\ addMonths d (Int 4) = Ok d'
         /\ toString d' = Ok (js "2001-04-30")).
Proof.
  split.
  - intros d n y m dd Hv Ey Em Ed Hn.
    destruct (getters_valid d y m dd Hv Ey Em Ed) as [Hy [Hm Hd]].
    set (idx := y * 12 + (m - 1) + n) in *.
    assert (Hidx : 12 <= idx <= 119999) by zdiv.
    unfold addMonths. rewrite Ey, Em, Ed.
    cbn [nadd nsub nmul quot_or0 nrem bind Math_max].
    replace (y * 12 + m - 1 + n) with idx by (subst idx; lia).
    rewrite quot_nonneg by lia. rewrite ToInt32_small by zdiv.
    rewrite Z.rem_mod_nonneg by lia.
    set (ny := idx / 12) in *. set (nm := idx mod 12 + 1).
    assert (Hnm : 1 <= nm <= 12) by (subst nm; zdiv).
    rewrite daysInMonth_Int.
    pose proof (monthLength_bounds (isLeapYear (Int ny)) nm Hnm) as Hlen.
    replace (dd - Z.max 0 (dd - monthLength (isLeapYear (Int ny)) nm))
      with (Z.min dd (monthLength (isLeapYear (Int ny)) nm)) by lia.
    destruct (create_getters ny nm
                (Z.min dd (monthLength (isLeapYear (Int ny)) nm)) Hn Hnm)
      as [d' Hd']; [lia |].
    exists d'. tauto.
  - split; eexists; eexists;
      (split; [vm_compute; reflexivity |
               split; [vm_compute; reflexivity | vm_compute; reflexivity]]).
Qed.

Lemma C3_addMonths_clamps_witness :
  exists d',
    addMonths {| value := 730850 |} (Int (- 25)) = Ok d' /\ valid d'
    /\ year d' = Int ((2000 * 12 + (12 - 1) + - 25) / 12)
    /\ month d' = Int ((2000 * 12 + (12 - 1) + - 25) mod 12 + 1)
    /\ day d'
       = Ok (Int (Z.min 31
                    (daysInMonth (Int ((2000 * 12 + (12 - 1) + - 25) / 12))
                       (Int ((2000 * 12 + (12 - 1) + - 25) mod 12 + 1))))).
Proof.
  apply (proj1 C3_addMonths_clamps {| value := 730850 |} (- 25) 2000 12 31).
  - unfold valid, MIN_VALUE, MAX_VALUE. cbn [value]. lia.
  - vm_compute. reflexivity.
  - vm_compute. reflexivity.
  - vm_compute. reflexivity.
  - vm_compute. split; discriminate.
Defined.

(** ** Decimal fields *)

Lemma jsstring_eqb_eq (a b : jsstring) : jsstring_eqb a b = true -> a = b.
Proof.
  unfold jsstring_eqb. destruct (list_eq_dec N.eq_dec a b); congruence.
Qed.

Lemma num_eqb_eq (a b : num) : num_eqb a b = true -> a = b.
Proof.
  destruct a, b; cbn; try congruence. intros H. f_equal. lia.
Qed.

Lemma opt_num_eqb_eq (a : option num) (b : num) :
  opt_num_eqb a b = true -> a = Some b.
Proof.
  destruct a; cbn; [| congruence]. intros H. f_equal. now apply num_eqb_eq.
Qed.

Lemma two_digits_all : forallb two_digits_ok (range 0 100) = true.
Proof. vm_compute. reflexivity. Qed.

Lemma two_digits_spec (n : Z) :
  0 <= n <= 99 ->
  (if nlt (Int n) (Int 10) then js "-0" else js "-") ++ NumberToString (Int n)
  = 45%N :: two_digits n
  /\ StringToNumber (two_digits n) = Some (Int n)
  /\ parseInt (two_digits n) = Int n.
Proof.
  intros H.
  pose proof (proj1 (forallb_forall _ _) two_digits_all n
                (In_range 0 100 n ltac:(lia))) as Hok.
  unfold two_digits_ok in Hok.
  apply andb_prop in Hok. destruct Hok as [Hok H3].
  apply andb_prop in Hok. destruct Hok as [H1 H2].
  split; [now apply jsstring_eqb_eq |].
  split; [now apply opt_num_eqb_eq | now apply num_eqb_eq].
Qed.

Lemma isDigit_digit (c : N) :
  isDigit c = true -> exists k, 0 <= k <= 9 /\ c = digit k.
Proof.
  unfold isDigit, digit. intros H. apply andb_prop in H. destruct H as [H1 H2].
  apply N.leb_le in H1, H2. exists (Z.of_N c - 48). split; [lia |].
  replace (48 + (Z.of_N c - 48)) with (Z.of_N c) by lia.
  now rewrite N2Z.id.
Qed.

Lemma four_digits_of (a b c d : Z) :
  0 <= a <= 9 -> 0 <= b <= 9 -> 0 <= c <= 9 -> 0 <= d <= 9 ->
  [digit a; digit b; digit c; digit d]
  = four_digits (1000 * a + 100 * b + 10 * c + d).
Proof.
  intros Ha Hb Hc Hd. unfold four_digits.
  replace ((1000 * a + 100 * b + 10 * c + d) / 1000) with a by zdiv.
  replace ((1000 * a + 100 * b + 10 * c + d) / 100 mod 10) with b by zdiv.
  replace ((1000 * a + 100 * b + 10 * c + d) / 10 mod 10) with c by zdiv.
  replace ((1000 * a + 100 * b + 10 * c + d) mod 10) with d by zdiv.
  reflexivity.
Qed.

Lemma two_digits_of (a b : Z) :
  0 <= a <= 9 -> 0 <= b <= 9 -> [digit a; digit b] = two_digits (10 * a + b).
Proof.
  intros Ha Hb. unfold two_digits.
  replace ((10 * a + b) / 10) with a by zdiv.
  replace ((10 * a + b) mod 10) with b by zdiv.
  reflexivity.
Qed.

Lemma is_canonical_iso (s : jsstring) :
  is_canonical s = true ->
  exists y m dd,
    0 <= y <= 9999 /\ 0 <= m <= 99 /\ 0 <= dd <= 99 /\ s = iso y m dd.
Proof.
  destruct s as [| a [| b [| c [| d [| h1 [| e [| f [| h2 [| g [| h [| ? ?]]]]]]]]]]];
    try discriminate.
  cbn [is_canonical]. intros H.
  do 9 (apply andb_prop in H; destruct H as [H ?]).
  repeat match goal with
         | E : N.eqb _ _ = true |- _ => apply N.eqb_eq in E; subst
         end.
  destruct (isDigit_digit a) as [ka [Ha ->]]; [assumption |].
  destruct (isDigit_digit b) as [kb [Hb ->]]; [assumption |].
  destruct (isDigit_digit c) as [kc [Hc ->]]; [assumption |].
  destruct (isDigit_digit d) as [kd [Hd ->]]; [assumption |].
  destruct (isDigit_digit e) as [ke [He ->]]; [assumption |].
  destruct (isDigit_digit f) as [kf [Hf ->]]; [assumption |].
  destruct (isDigit_digit g) as [kg [Hg ->]]; [assumption |].
  destruct (isDigit_digit h) as [kh [Hh ->]]; [assumption |].
  exists (1000 * ka + 100 * kb + 10 * kc + kd), (10 * ke + kf), (10 * kg + kh).
  unfold iso.
  rewrite <- four_digits_of by assumption.
  rewrite <- !two_digits_of by assumption.
  split; [lia |]. split; [lia |]. split; [lia |]. reflexivity.
Qed.

Lemma iso_canonical (y m dd : Z) :
  0 <= y <= 9999 -> 0 <= m <= 99 -> 0 <= dd <= 99 ->
  is_canonical (iso y m dd) = true /\ List.length (iso y m dd) = 10%nat.
Proof.
  intros Hy Hm Hd. split; [| reflexivity].
  assert (Hdig : forall k, 0 <= k <= 9 -> isDigit (digit k) = true).
  { intros k Hk. unfold isDigit, digit.
    apply andb_true_intro. split; apply N.leb_le; lia. }
  unfold iso, four_digits, two_digits. cbn [app is_canonical].
  rewrite !Hdig by zdiv. reflexivity.
Qed.

(** ** Digit strings of any length *)

Lemma isDigit_bounds (c : N) : isDigit c = true -> (48 <= c <= 57)%N.
Proof.
  unfold isDigit. intros H. apply andb_prop in H. destruct H as [H1 H2].
  apply N.leb_le in H1, H2. lia.
Qed.

Lemma isDigit_cases (c : N) :
  isDigit c = true -> In c [48; 49; 50; 51; 52; 53; 54; 55; 56; 57]%N.
Proof.
  intros H. apply isDigit_bounds in H. cbn [In].
  assert (c = 48 \/ c = 49 \/ c = 50 \/ c = 51 \/ c = 52 \/ c = 53 \/ c = 54
          \/ c = 55 \/ c = 56 \/ c = 57)%N by lia.
  intuition auto.
Qed.

Ltac each_digit c H :=
  let Hin := fresh in
  pose proof (isDigit_cases c H) as Hin; cbn [In] in Hin;
  repeat (destruct Hin as [<- | Hin]); [.. | destruct Hin].

Lemma digit_not_space (c : N) :
  isDigit c = true -> isStrWhiteSpaceChar c = false.
Proof. intros H. each_digit c H; reflexivity. Qed.

Lemma trimStart_digit (c : N) (s : jsstring) :
  isDigit c = true -> trimStart (c :: s) = c :: s.
Proof. intros H. cbn [trimStart]. now rewrite digit_not_space. Qed.

Lemma splitSign_digit (c : N) (s : jsstring) :
  isDigit c = true -> splitSign (c :: s) = (1, c :: s).
Proof. intros H. each_digit c H; reflexivity. Qed.

Lemma spanDigits_app (ds rest : jsstring) :
  forallb isDigit ds = true ->
  match rest with [] => True | c :: _ => isDigit c = false end ->
  spanDigits (ds ++ rest) = (ds, rest).
Proof.
  intros Hd Hr. induction ds as [| c ds IH].
  - destruct rest as [| c r]; [reflexivity |]. cbn. now rewrite Hr.
  - cbn [forallb] in Hd. apply andb_prop in Hd. destruct Hd as [Hc Hd].
    cbn [app spanDigits]. rewrite Hc, (IH Hd). reflexivity.
Qed.

Lemma spanDigits_all (ds : jsstring) :
  forallb isDigit ds = true -> spanDigits ds = (ds, []).
Proof.
  intros H. rewrite <- (app_nil_r ds) at 1. now apply spanDigits_app.
Qed.

Lemma digitsValue_snoc (ds : jsstring) (c : N) :
  digitsValue (ds ++ [c]) = 10 * digitsValue ds + (Z.of_N c - 48).
Proof. unfold digitsValue. now rewrite fold_left_app. Qed.

Lemma digitsValue_nonneg (ds : jsstring) :
  forallb isDigit ds = true -> 0 <= digitsValue ds.
Proof.
  induction ds as [| c ds IH] using rev_ind; intros H.
  - cbn. lia.
  - rewrite forallb_app in H. apply andb_prop in H. destruct H as [Hd Hc].
    cbn [forallb] in Hc. rewrite andb_true_r in Hc.
    apply isDigit_bounds in Hc. rewrite digitsValue_snoc.
    specialize (IH Hd). lia.
Qed.

Lemma digitsValue_zero (ds : jsstring) :
  forallb isDigit ds = true -> digitsValue ds = 0 ->
  ds = List.repeat 48%N (List.length ds).
Proof.
  induction ds as [| c ds IH] using rev_ind; intros H E.
  - reflexivity.
  - rewrite forallb_app in H. apply andb_prop in H. destruct H as [Hd Hc].
    cbn [forallb] in Hc. rewrite andb_true_r in Hc.
    pose proof (isDigit_bounds c Hc) as Hb.
    pose proof (digitsValue_nonneg ds Hd) as Hn.
    rewrite digitsValue_snoc in E.
    assert (c = 48%N) by lia. subst c.
    rewrite length_app. cbn [List.length]. rewrite Nat.add_1_r.
    cbn [List.repeat]. rewrite repeat_cons. f_equal.
    apply IH; [exact Hd | lia].
Qed.

Lemma digitsValue_repeat0 (k : nat) : digitsValue (List.repeat 48%N k) = 0.
Proof.
  induction k as [| k IH]; [reflexivity |].
  cbn [List.repeat]. rewrite repeat_cons, digitsValue_snoc, IH. reflexivity.
Qed.

(** *** Printing a number in decimal *)

Lemma digits_fuel_more (f : nat) :
  forall (n : Z) (g : nat),
    0 <= n < 2 ^ Z.of_nat (S f) -> (f <= g)%nat ->
    digits_fuel (S g) n = digits_fuel (S f) n.
Proof.
  induction f as [| f IH]; intros n g Hn Hg.
  - change (2 ^ Z.of_nat 1) with 2 in Hn. cbn [digits_fuel].
    destruct (Z.ltb_spec n 10); [reflexivity | lia].
  - cbn [digits_fuel]. destruct (Z.ltb_spec n 10) as [| Hge]; [reflexivity |].
    destruct g as [| g]; [lia |]. f_equal.
    apply IH; [| lia].
    rewrite Nat2Z.inj_succ, Z.pow_succ_r in Hn by lia.
    split; [zdiv |]. apply Z.div_lt_upper_bound; lia.
Qed.

Lemma decimal_unfold (n : Z) :
  0 <= n ->
  decimal n
  = (if n <? 10 then [] else decimal (n / 10)) ++ [Z.to_N (48 + n mod 10)].
Proof.
  intros Hn. unfold decimal. cbn [digits_fuel].
  destruct (Z.ltb_spec n 10) as [| Hge]; [reflexivity |]. f_equal.
  assert (Hq : 0 < n / 10) by zdiv.
  pose proof (Z.log2_spec n ltac:(lia)) as [Hlo Hhi].
  pose proof (Z.log2_spec (n / 10) Hq) as [Hlo' Hhi'].
  pose proof (Z.log2_nonneg (n / 10)) as H0.
  pose proof (Z.log2_nonneg n) as H1.
  rewrite Z.pow_succ_r in Hhi by exact H1.
  assert (Hlt : Z.log2 (n / 10) < Z.log2 n).
  { apply Z.log2_lt_pow2; [exact Hq |].
    apply Z.div_lt_upper_bound; lia. }
  replace (Z.to_nat (Z.log2 n)) with (S (Z.to_nat (Z.log2 n - 1))) by lia.
  apply digits_fuel_more; [| lia].
  rewrite Nat2Z.inj_succ, Z2Nat.id by lia. lia.
Qed.

Lemma digits_fuel_digits (f : nat) :
  forall n, 0 <= n -> forallb isDigit (digits_fuel f n) = true.
Proof.
  induction f as [| f IH]; intros n Hn; [reflexivity |].
  cbn [digits_fuel]. rewrite forallb_app. apply andb_true_intro. split.
  - destruct (Z.ltb_spec n 10); [reflexivity |]. apply IH. zdiv.
  - cbn [forallb]. rewrite andb_true_r. unfold isDigit.
    apply andb_true_intro. split; apply N.leb_le; zdiv.
Qed.

Lemma decimal_digits (n : Z) : 0 <= n -> forallb isDigit (decimal n) = true.
Proof. intros H. now apply digits_fuel_digits. Qed.

(** Padding the printed value of a digit string gives the string back. *)
Lemma padStart0_decimal (ds : jsstring) :
  forallb isDigit ds = true -> ds <> [] ->
  padStart0 (decimal (digitsValue ds)) (List.length ds) = ds.
Proof.
  induction ds as [| c ds IH] using rev_ind; intros H Hne; [congruence |].
  rewrite forallb_app in H. apply andb_prop in H. destruct H as [Hd Hc].
  cbn [forallb] in Hc. rewrite andb_true_r in Hc.
  pose proof (isDigit_bounds c Hc) as Hb.
  pose proof (digitsValue_nonneg ds Hd) as Hn.
  rewrite digitsValue_snoc, length_app. cbn [List.length]. rewrite Nat.add_1_r.
  rewrite decimal_unfold by lia.
  replace ((10 * digitsValue ds + (Z.of_N c - 48)) / 10)
    with (digitsValue ds) by zdiv.
  replace (Z.to_N (48 + (10 * digitsValue ds + (Z.of_N c - 48)) mod 10))
    with c by zdiv.
  destruct (Z.ltb_spec (10 * digitsValue ds + (Z.of_N c - 48)) 10) as [Hs | Hs].
  - assert (E0 : digitsValue ds = 0) by lia.
    unfold padStart0. cbn [app List.length]. rewrite Nat.sub_succ, Nat.sub_0_r.
    now rewrite <- (digitsValue_zero ds Hd E0).
  - assert (Hds : ds <> []) by (intros ->; cbn in Hs; lia).
    specialize (IH Hd Hds). unfold padStart0 in *.
    rewrite length_app. cbn [List.length]. rewrite Nat.add_1_r, Nat.sub_succ.
    rewrite app_assoc. now rewrite IH.
Qed.

Lemma parseInt_digits (ds : jsstring) :
  forallb isDigit ds = true -> ds <> [] -> parseInt ds = Int (digitsValue ds).
Proof.
  intros H Hne. destruct ds as [| c ds]; [congruence |].
  pose proof H as Hall. cbn [forallb] in H. apply andb_prop in H.
  destruct H as [Hc _].
  unfold parseInt. rewrite trimStart_digit, splitSign_digit by exact Hc.
  rewrite spanDigits_all by exact Hall. f_equal. lia.
Qed.

(** *** Reading a digit string as a number *)

Lemma forallb_rev {A : Type} (f : A -> bool) (l : list A) :
  forallb f (rev l) = forallb f l.
Proof.
  induction l as [| a l IH]; [reflexivity |].
  cbn [rev forallb]. rewrite forallb_app, IH. cbn [forallb].
  rewrite andb_true_r. apply andb_comm.
Qed.

Lemma trimStart_digits (ds : jsstring) :
  forallb isDigit ds = true -> trimStart ds = ds.
Proof.
  destruct ds as [| c ds]; [reflexivity |].
  cbn [forallb]. intros H. apply andb_prop in H.
  apply trimStart_digit. tauto.
Qed.

Lemma trim_digits (ds : jsstring) : forallb isDigit ds = true -> trim ds = ds.
Proof.
  intros H. unfold trim, trimEnd. rewrite (trimStart_digits ds H).
  rewrite trimStart_digits by (now rewrite forallb_rev).
  apply rev_involutive.
Qed.

Lemma nonDecimalRadix_digit (p : N) :
  isDigit p = true -> nonDecimalRadix p = None.
Proof. intros H. each_digit p H; reflexivity. Qed.

Lemma parseNonDecimal_digits (ds : jsstring) :
  forallb isDigit ds = true -> parseNonDecimal ds = None.
Proof.
  destruct ds as [| c [| p [| d r]]]; intros H.
  - reflexivity.
  - cbn [forallb] in H. apply andb_prop in H. destruct H as [Hc _].
    each_digit c Hc; reflexivity.
  - cbn [forallb] in H. apply andb_prop in H. destruct H as [Hc _].
    each_digit c Hc; reflexivity.
  - cbn [forallb] in H. apply andb_prop in H. destruct H as [Hc H].
    apply andb_prop in H. destruct H as [Hp _].
    pose proof (nonDecimalRadix_digit p Hp) as Hr.
    each_digit c Hc; cbn [parseNonDecimal]; try reflexivity.
    now rewrite Hr.
Qed.

Lemma parseUnsignedDecimal_digits (ds : jsstring) :
  forallb isDigit ds = true -> ds <> [] ->
  parseUnsignedDecimal ds = Some (digitsValue ds, 0).
Proof.
  intros H Hne. unfold parseUnsignedDecimal.
  rewrite spanDigits_all by exact H. cbv beta iota.
  rewrite app_nil_r. destruct ds as [| c ds]; [congruence | reflexivity].
Qed.

Lemma StringToNumber_digits (ds : jsstring) :
  forallb isDigit ds = true -> ds <> [] ->
  digitsValue ds <= 9007199254740992 ->
  StringToNumber ds = Some (Int (digitsValue ds)).
Proof.
  intros H Hne Hb. unfold StringToNumber.
  rewrite trim_digits by exact H.
  pose proof (digitsValue_nonneg ds H) as Hn.
  pose proof (parseUnsignedDecimal_digits ds H Hne) as Hp.
  pose proof (parseNonDecimal_digits ds H) as Hnd.
  destruct ds as [| c ds]; [congruence |].
  pose proof H as Hc. cbn [forallb] in Hc. apply andb_prop in Hc.
  destruct Hc as [Hc _].
  rewrite Hnd, splitSign_digit by exact Hc.
  destruct (list_eq_dec N.eq_dec (c :: ds) (js "Infinity")) as [E | _].
  { exfalso. injection E as -> _. discriminate. }
  rewrite Hp. unfold exactInt. rewrite Z.mul_1_l.
  destruct (Z.eqb_spec (digitsValue (c :: ds)) 0) as [-> | _]; [reflexivity |].
  change (0 <=? 0) with true. change (0 <=? 16) with true. cbv iota.
  rewrite Z.pow_0_r, Z.mul_1_r. change (2 ^ 53) with 9007199254740992.
  destruct (Z.leb_spec (Z.abs (digitsValue (c :: ds))) 9007199254740992);
    [reflexivity | lia].
Qed.

(** *** The 4-digit field *)

Lemma digit_value (k : Z) : 0 <= k <= 9 -> Z.of_N (digit k) - 48 = k.
Proof. intros H. unfold digit. lia. Qed.

Lemma isDigit_of_digit (k : Z) : 0 <= k <= 9 -> isDigit (digit k) = true.
Proof.
  intros H. unfold isDigit, digit.
  apply andb_true_intro. split; apply N.leb_le; lia.
Qed.

Lemma four_digits_value (n : Z) :
  0 <= n <= 9999 ->
  forallb isDigit (four_digits n) = true /\ digitsValue (four_digits n) = n.
Proof.
  intros H. unfold four_digits. split.
  - cbn [forallb]. rewrite !isDigit_of_digit by zdiv. reflexivity.
  - unfold digitsValue. cbn [fold_left]. rewrite !digit_value by zdiv. zdiv.
Qed.

Lemma four_digits_spec (n : Z) :
  0 <= n <= 9999 ->
  padStart0 (NumberToString (Int n)) 4 = four_digits n
  /\ StringToNumber (four_digits n) = Some (Int n)
  /\ parseInt (four_digits n) = Int n.
Proof.
  intros H. destruct (four_digits_value n H) as [Hd Hv].
  assert (Hne : four_digits n <> []) by discriminate.
  split; [| split].
  - unfold NumberToString. destruct (Z.ltb_spec n 0); [lia |].
    rewrite <- Hv at 1.
    exact (padStart0_decimal (four_digits n) Hd Hne).
  - rewrite StringToNumber_digits; [now rewrite Hv | exact Hd | exact Hne | lia].
  - rewrite parseInt_digits; [now rewrite Hv | exact Hd | exact Hne].
Qed.

(** ** Printing and parsing *)

Lemma toString_iso (d : CalendarDate) (y m dd : Z) :
  valid d -> year d = Int y -> month d = Int m -> day d = Ok (Int dd) ->
  toString d = Ok (iso y m dd).
Proof.
  intros Hv Ey Em Ed.
  destruct (getters_valid d y m dd Hv Ey Em Ed) as [Hy [Hm Hd]].
  pose proof (monthLength_bounds (isLeapYear (Int y)) m Hm) as Hlen.
  destruct (four_digits_spec y ltac:(lia)) as [Py _].
  destruct (two_digits_spec m ltac:(lia)) as [Pm _].
  destruct (two_digits_spec dd ltac:(lia)) as [Pd _].
  unfold toString. rewrite Ey, Em, Ed. cbn [bind].
  rewrite Py, Pd. rewrite (app_assoc _ (NumberToString (Int m))), Pm.
  reflexivity.
Qed.

Lemma fromString_iso (y m dd : Z) :
  0 <= y <= 9999 -> 0 <= m <= 99 -> 0 <= dd <= 99 ->
  fromString (iso y m dd)
  = Some (v <- tripletToDaysValue (Int y) (Int m) (Int dd) ;;
          new_CalendarDate v).
Proof.
  intros Hy Hm Hd.
  destruct (four_digits_spec y Hy) as [_ [Ry _]].
  destruct (two_digits_spec m Hm) as [_ [Rm _]].
  destruct (two_digits_spec dd Hd) as [_ [Rd _]].
  unfold fromString.
  change (List.length (iso y m dd)) with 10%nat.
  change (charAt_is (iso y m dd) 4 45) with true.
  change (charAt_is (iso y m dd) 7 45) with true.
  change (extractInt (iso y m dd) 0 4) with (StringToNumber (four_digits y)).
  change (extractInt (iso y m dd) 5 2) with (StringToNumber (two_digits m)).
  change (extractInt (iso y m dd) 8 2) with (StringToNumber (two_digits dd)).
  cbn [Nat.eqb andb]. rewrite Ry, Rm, Rd. reflexivity.
Qed.

(** What the encoder accepts among the fields a canonical string can hold. *)
Lemma tripletToDaysValue_fields (y m dd v : Z) :
  0 <= y <= 9999 -> 0 <= m <= 99 ->
  tripletToDaysValue (Int y) (Int m) (Int dd) = Ok (Int v) ->
  1 <= m <= 12 /\ 1 <= dd <= monthLength (isLeapYear (Int y)) m
  /\ v = jan1 y + monthStart (isLeapYear (Int y)) m + dd - 1.
Proof.
  intros Hy Hm E.
  assert (Hm' : 1 <= m <= 12).
  { destruct (Z_le_gt_dec 1 m) as [H1 | H1];
      [destruct (Z_le_gt_dec m 12) as [H2 | H2]; [lia |] |]; exfalso.
    - assert (En : index MONTH_SUMS_NORMAL_YEAR (Int m) = NaN).
      { unfold index. destruct (Z.ltb_spec m 0); [reflexivity |].
        apply nth_overflow. change (List.length MONTH_SUMS_NORMAL_YEAR) with 13%nat.
        lia. }
      unfold tripletToDaysValue in E. rewrite En in E.
      rewrite yearDays_Int in E by lia. cbn [nadd nsub] in E.
      destruct (nle (Int dd) (Int 0) || ngt (Int dd) (Int (daysInMonth (Int y) (Int m))));
        [discriminate |].
      destruct (isLeapYear (Int y) && ngt (Int m) (Int 2)); discriminate.
    - assert (m = 0) by lia. subst m.
      unfold tripletToDaysValue in E.
      change (index MONTH_SUMS_NORMAL_YEAR (Int 0)) with NaN in E.
      rewrite yearDays_Int in E by lia. cbn [nadd nsub] in E.
      destruct (nle (Int dd) (Int 0) || ngt (Int dd) (Int (daysInMonth (Int y) (Int 0))));
        [discriminate |].
      destruct (isLeapYear (Int y) && ngt (Int 0) (Int 2)); discriminate. }
  split; [exact Hm' |].
  rewrite tripletToDaysValue_Int in E by lia.
  destruct (Z.leb_spec dd 0); [discriminate |].
  destruct (Z.ltb_spec (monthLength (isLeapYear (Int y)) m) dd); [discriminate |].
  cbn [orb] in E. injection E as E. lia.
Qed.

(** A canonical string that [fromString] accepts names a valid triple, and
    the date built is the one whose getters read that triple. *)
Lemma fromString_iso_Ok (y m dd : Z) (d : CalendarDate) :
  0 <= y <= 9999 -> 0 <= m <= 99 -> 0 <= dd <= 99 ->
  fromString (iso y m dd) = Some (Ok d) ->
  valid d /\ year d = Int y /\ month d = Int m /\ day d = Ok (Int dd).
Proof.
  intros Hy Hm Hd E. rewrite fromString_iso in E by assumption.
  injection E as E.
  destruct (tripletToDaysValue (Int y) (Int m) (Int dd)) as [v |] eqn:Et;
    [| discriminate].
  cbn [bind] in E. destruct (new_CalendarDate_Ok v d E) as [-> Hv].
  destruct (tripletToDaysValue_fields y m dd (value d) Hy Hm Et)
    as [Hm' [Hd' Ev]].
  assert (Hy' : 1 <= y).
  { destruct (Z.eq_dec y 0) as [-> | ?]; [| lia]. exfalso.
    destruct (month_days_spec (isLeapYear (Int 0)) m dd Hm' Hd') as [_ Hlen].
    change (jan1 0) with 0 in Ev. unfold valid, MIN_VALUE in Hv.
    change (isLeapYear (Int 0)) with true in *. cbn [yearLength] in Hlen. lia. }
  destruct (encode_spec y m dd ltac:(lia) Hm' Hd') as [_ [Ey [Em Ed]]].
  rewrite <- Ev in Ey, Em, Ed. destruct d as [v]. cbn [value] in *.
  tauto.
Qed.

(** C6: for every valid date [toString] gives the 10-character form
    YYYY-MM-DD, year on 4 digits and month and day on 2, padded with
    zeros; [fromString] reads it back as the same date; and a string of
    the canonical form that [fromString] accepts is printed back
    unchanged. *)
Theorem C6_toString_fromString_inverse :
  (forall d, valid d ->
     exists y m dd s,
       year d = Int y /\ month d = Int m /\ day d = Ok (Int dd)
       /\ toString d = Ok s /\ s = iso y m dd
       /\ List.length s = 10%nat /\ is_canonical s = true
       /\ fromString s = Some (Ok d))
  /\ (forall s d,
        is_canonical s = true -> fromString s = Some (Ok d) ->
        toString d = Ok s).
Proof.
  split.
  - intros [v] Hv. unfold valid in Hv. cbn [value] in Hv.
    destruct (decode_spec v Hv) as [y [m [dd [Ey [Em [Ed [Hy [Hm [Hd Ev]]]]]]]]].
    pose proof (monthLength_bounds (isLeapYear (Int y)) m Hm) as Hlen.
    destruct (iso_canonical y m dd) as [Hc Hl]; try lia.
    exists y, m, dd, (iso y m dd).
    split; [exact Ey |]. split; [exact Em |]. split; [exact Ed |].
    split; [apply toString_iso; assumption |]. split; [reflexivity |].
    split; [exact Hl |]. split; [exact Hc |].
    rewrite fromString_iso by lia.
    rewrite tripletToDaysValue_valid by lia. cbn [bind].
    rewrite <- Ev. rewrite new_CalendarDate_valid by exact Hv. reflexivity.
  - intros s d Hc E.
    destruct (is_canonical_iso s Hc) as [y [m [dd [Hy [Hm [Hd ->]]]]]].
    destruct (fromString_iso_Ok y m dd d Hy Hm Hd E) as [Hv [Ey [Em Ed]]].
    apply toString_iso; assumption.
Qed.

Lemma C6_toString_fromString_inverse_witness :
  (exists y m dd s,
      year {| value := 45019 |} = Int y /\ month {| value := 45019 |} = Int m
      /\ day {| value := 45019 |} = Ok (Int dd)
      /\ toString {| value := 45019 |} = Ok s /\ s = iso y m dd
      /\ List.length s = 10%nat /\ is_canonical s = true
      /\ fromString s = Some (Ok {| value := 45019 |}))
  /\ toString {| value := 45019 |} = Ok (js "0123-04-05").
Proof.
  split.
  - apply (proj1 C6_toString_fromString_inverse {| value := 45019 |}).
    unfold valid, MIN_VALUE, MAX_VALUE. cbn [value]. lia.
  - apply (proj2 C6_toString_fromString_inverse (js "0123-04-05")).
    + vm_compute. reflexivity.
    + vm_compute. reflexivity.
Defined.

(** ** The two variants of the parser on 8-character strings *)

Lemma digits8_basic (s : jsstring) :
  List.length s = 8%nat -> forallb isDigit s = true ->
  exists y m dd,
    0 <= y <= 9999 /\ 0 <= m <= 99 /\ 0 <= dd <= 99 /\ s = iso_basic y m dd.
Proof.
  destruct s as [| a [| b [| c [| d [| e [| f [| g [| h [| ? ?]]]]]]]]];
    try discriminate.
  intros _ H. cbn [forallb] in H.
  do 8 (apply andb_prop in H; let E := fresh "E" in destruct H as [E H]).
  destruct (isDigit_digit a) as [ka [Ha ->]]; [assumption |].
  destruct (isDigit_digit b) as [kb [Hb ->]]; [assumption |].
  destruct (isDigit_digit c) as [kc [Hc ->]]; [assumption |].
  destruct (isDigit_digit d) as [kd [Hd ->]]; [assumption |].
  destruct (isDigit_digit e) as [ke [He ->]]; [assumption |].
  destruct (isDigit_digit f) as [kf [Hf ->]]; [assumption |].
  destruct (isDigit_digit g) as [kg [Hg ->]]; [assumption |].
  destruct (isDigit_digit h) as [kh [Hh ->]]; [assumption |].
  exists (1000 * ka + 100 * kb + 10 * kc + kd), (10 * ke + kf), (10 * kg + kh).
  unfold iso_basic.
  rewrite <- four_digits_of by assumption.
  rewrite <- !two_digits_of by assumption.
  split; [lia |]. split; [lia |]. split; [lia |]. reflexivity.
Qed.

Lemma fromString_basic (y m dd : Z) :
  0 <= y <= 9999 -> 0 <= m <= 99 -> 0 <= dd <= 99 ->
  fromString (iso_basic y m dd)
  = Some (v <- tripletToDaysValue (Int y) (Int m) (Int dd) ;;
          new_CalendarDate v).
Proof.
  intros Hy Hm Hd.
  destruct (four_digits_spec y Hy) as [_ [Ry _]].
  destruct (two_digits_spec m Hm) as [_ [Rm _]].
  destruct (two_digits_spec dd Hd) as [_ [Rd _]].
  unfold fromString.
  change (List.length (iso_basic y m dd)) with 8%nat.
  change (extractInt (iso_basic y m dd) 0 4) with (StringToNumber (four_digits y)).
  change (extractInt (iso_basic y m dd) 4 2) with (StringToNumber (two_digits m)).
  change (extractInt (iso_basic y m dd) 6 2) with (StringToNumber (two_digits dd)).
  cbn [Nat.eqb andb]. rewrite Ry, Rm, Rd. reflexivity.
Qed.

(** The re-serialisation test of part_000 passes on eight digits. *)
Lemma part000_test_digits (s : jsstring) :
  List.length s = 8%nat -> forallb isDigit s = true ->
  padStart0 (NumberToString (parseInt s)) 8 = s.
Proof.
  intros Hl Hd.
  assert (Hne : s <> []) by (intros ->; discriminate).
  rewrite parseInt_digits by assumption.
  pose proof (digitsValue_nonneg s Hd) as Hn.
  unfold NumberToString. destruct (Z.ltb_spec (digitsValue s) 0); [lia |].
  rewrite <- Hl at 1. now apply padStart0_decimal.
Qed.

Lemma part000_fromString_basic (y m dd : Z) :
  0 <= y <= 9999 -> 0 <= m <= 99 -> 0 <= dd <= 99 ->
  Part000.fromString (iso_basic y m dd)
  = (v <- tripletToDaysValue (Int y) (Int m) (Int dd) ;; new_CalendarDate v).
Proof.
  intros Hy Hm Hd.
  destruct (four_digits_spec y Hy) as [_ [_ Ry]].
  destruct (two_digits_spec m Hm) as [_ [_ Rm]].
  destruct (two_digits_spec dd Hd) as [_ [_ Rd]].
  assert (Hdig : forallb isDigit (iso_basic y m dd) = true).
  { assert (Hk : forall k, 0 <= k <= 9 -> isDigit (digit k) = true).
    { intros k Hk. unfold isDigit, digit.
      apply andb_true_intro. split; apply N.leb_le; lia. }
    unfold iso_basic, four_digits, two_digits. cbn [app forallb].
    rewrite !Hk by zdiv. reflexivity. }
  pose proof (part000_test_digits (iso_basic y m dd) eq_refl Hdig) as Ht.
  unfold Part000.fromString.
  change (List.length (iso_basic y m dd)) with 8%nat.
  change (Part000.extractInt (iso_basic y m dd) 0 4) with (parseInt (four_digits y)).
  change (Part000.extractInt (iso_basic y m dd) 4 6) with (parseInt (two_digits m)).
  change (Part000.extractInt (iso_basic y m dd) 6 8) with (parseInt (two_digits dd)).
  cbn [Nat.eqb andb].
  destruct (list_eq_dec N.eq_dec
              (padStart0 (NumberToString (parseInt (iso_basic y m dd))) 8)
              (iso_basic y m dd)) as [_ | Hno]; [| contradiction].
  rewrite Ry, Rm, Rd. reflexivity.
Qed.

(** *** Strings that pass the test of part_000 *)

Lemma part000_test_shape (s : jsstring) :
  List.length s = 8%nat ->
  padStart0 (NumberToString (parseInt s)) 8 = s ->
  forallb isDigit s = true
  \/ exists ds, s = 45%N :: ds /\ forallb isDigit ds = true.
Proof.
  intros Hl E. destruct (parseInt s) as [| z] eqn:Ep.
  - exfalso. rewrite <- E in Ep. vm_compute in Ep. discriminate.
  - unfold NumberToString in E. destruct (Z.ltb_spec z 0) as [Hneg | Hpos].
    + unfold padStart0 in E.
      pose proof (decimal_digits (- z) ltac:(lia)) as Hd.
      destruct (8 - List.length (45%N :: decimal (- z)))%nat as [| k] eqn:Ek.
      * right. exists (decimal (- z)). split; [now rewrite <- E | exact Hd].
      * exfalso. cbn [List.repeat app] in E.
        assert (Ez : parseInt s = Int 0).
        { rewrite <- E. unfold parseInt.
          rewrite trimStart_digit, splitSign_digit by reflexivity.
          change (48%N :: List.repeat 48%N k ++ 45%N :: decimal (- z))
            with (List.repeat 48%N (S k) ++ 45%N :: decimal (- z)).
          rewrite spanDigits_app.
          - cbn [List.repeat]. rewrite <- (digitsValue_repeat0 (S k)).
            cbn [List.repeat]. f_equal. lia.
          - clear. induction k as [| k IH]; [reflexivity |].
            cbn [List.repeat forallb] in *. exact IH.
          - reflexivity. }
        rewrite Ep in Ez. injection Ez as Ez. lia.
    + left. rewrite <- E. unfold padStart0. rewrite forallb_app.
      apply andb_true_intro. split; [| apply decimal_digits; lia].
      generalize (8 - List.length (decimal z))%nat. intros k.
      induction k as [| k IH]; [reflexivity | exact IH].
Qed.

Lemma daysInMonth_le (y m : num) : daysInMonth y m <= 31.
Proof.
  unfold daysInMonth, optimizedDaysInMonth.
  destruct (neqb m (Int 2)); [destruct (isLeapYear y); lia |].
  destruct (neqb (band m (Int 1)) (sar m 3)); lia.
Qed.

Lemma index_sums_le (m : num) (s : Z) :
  index MONTH_SUMS_NORMAL_YEAR m = Int s -> s <= 334.
Proof.
  destruct m as [| m]; [discriminate |]. unfold index.
  destruct (Z.ltb_spec m 0); [discriminate |].
  destruct (Z_le_gt_dec m 12) as [Hm | Hm].
  - assert (Hc : m = 0 \/ 1 <= m <= 12) by lia. destruct Hc as [-> | Hc].
    + discriminate.
    + each_month m Hc; cbn; intros E; injection E as <-; lia.
  - rewrite nth_overflow; [discriminate |].
    change (List.length MONTH_SUMS_NORMAL_YEAR) with 13%nat. lia.
Qed.

(** No date comes out of a year that is not positive. *)
Lemma nonpositive_year_rejected (y : Z) (m dd : num) (d : CalendarDate) :
  - 1000000 <= y <= 0 ->
  (v <- tripletToDaysValue (Int y) m dd ;; new_CalendarDate v) <> Ok d.
Proof.
  intros Hy E.
  destruct (tripletToDaysValue (Int y) m dd) as [v |] eqn:Et; [| discriminate].
  cbn [bind] in E. destruct (new_CalendarDate_Ok v d E) as [-> Hv].
  unfold valid, MIN_VALUE in Hv. revert Et. unfold tripletToDaysValue.
  destruct (yearDays_any y) as [a [b [c [Ey [_ [_ [_ Hq]]]]]]].
  destruct (Hq ltac:(lia)) as [-> [-> ->]]. rewrite Ey.
  pose proof (daysInMonth_le (Int y) m) as Hdim.
  destruct (index MONTH_SUMS_NORMAL_YEAR m) as [| s] eqn:Es.
  { cbn [nadd nsub].
    destruct (nle dd (Int 0) || ngt dd (Int (daysInMonth (Int y) m)));
      [discriminate |].
    destruct (isLeapYear (Int y) && ngt m (Int 2)); discriminate. }
  apply index_sums_le in Es.
  destruct dd as [| dd].
  { cbn [nle ngt nlt orb nadd nsub].
    match goal with |- (if ?c then _ else _) = _ -> _ => destruct c end;
      discriminate. }
  cbn [nle ngt nlt].
  destruct (Z.leb_spec dd 0); [discriminate |].
  destruct (Z.ltb_spec (daysInMonth (Int y) m) dd); [discriminate |].
  cbn [orb nadd nsub].
  match goal with |- (if ?c then _ else _) = _ -> _ => destruct c end;
    intros Ev; injection Ev as Ev; zdiv.
Qed.

Lemma part000_minus_rejected (ds : jsstring) (d : CalendarDate) :
  List.length ds = 7%nat -> forallb isDigit ds = true ->
  Part000.fromString (45%N :: ds) <> Ok d.
Proof.
  destruct ds as [| a [| b [| c [| e [| f [| g [| h [| ? ?]]]]]]]];
    try discriminate.
  intros _ H. cbn [forallb] in H.
  do 3 (apply andb_prop in H; let E := fresh "E" in destruct H as [E H]).
  clear H.
  assert (Ey : Part000.extractInt [45; a; b; c; e; f; g; h]%N 0 4
               = Int (- digitsValue [a; b; c])).
  { change (Part000.extractInt [45; a; b; c; e; f; g; h]%N 0 4)
      with (parseInt [45; a; b; c]%N).
    unfold parseInt.
    change (trimStart [45; a; b; c]%N) with [45; a; b; c]%N.
    change (splitSign [45; a; b; c]%N) with (-1, [a; b; c]).
    cbv beta iota.
    rewrite spanDigits_all by (cbn [forallb]; now rewrite E, E0, E1).
    f_equal; lia. }
  assert (Hv : 0 <= digitsValue [a; b; c] <= 999).
  { apply isDigit_bounds in E, E0, E1. unfold digitsValue. cbn [fold_left]. lia. }
  unfold Part000.fromString. rewrite Ey.
  destruct (_ && _ && _); [| destruct (_ && _)];
    match goal with
    | |- context [if ?c then _ else _] => destruct c
    end;
    try discriminate; apply nonpositive_year_rejected; lia.
Qed.

(** A string that is neither 8 characters long nor 10 characters long with
    hyphens at 4 and 7 is always refused with the format error. *)
Lemma fromString_other_length (s : jsstring) :
  List.length s <> 8%nat ->
  (List.length s = 10%nat -> charAt_is s 4 45 && charAt_is s 7 45 = false) ->
  fromString s = Some (Throw DateStringFormat).
Proof.
  intros H8 H10. unfold fromString.
  destruct (Nat.eqb_spec (List.length s) 10) as [E10 | N10].
  - cbn [andb]. rewrite (H10 E10).
    destruct (Nat.eqb_spec (List.length s) 8) as [E8 | _]; [contradiction |].
    cbn [isNaN_opt]. now rewrite orb_true_r.
  - cbn [andb].
    destruct (Nat.eqb_spec (List.length s) 8) as [E8 | _]; [contradiction |].
    cbn [isNaN_opt]. now rewrite orb_true_r.
Qed.

(** C7: [fromString] is meant to accept only the shapes YYYY-MM-DD and
    YYYYMMDD (eight digits) and to raise the format error on every other
    string.  It does so for every string of a length other than 8 and 10,
    and for "hello", "2016,01,01", "05/05/05" and "2016-o1-o1"; but the
    8-character string "2016 1 1", which is not made of digits, is read as
    2016-01-01 instead of being refused, where part_000 refuses it. *)
Theorem C7_fromString_accepts_spaced_fields :
  fromString (js "2016 1 1") = Some (Ok {| value := 736329 |})
  /\ toString {| value := 736329 |} = Ok (js "2016-01-01")
  /\ forallb isDigit (js "2016 1 1") = false
  /\ Part000.fromString (js "2016 1 1") = Throw DateStringFormat
  /\ fromString (js "2016-1-1") = Some (Throw DayOutOfRange)
  /\ fromString (js "hello") = Some (Throw DateStringFormat)
  /\ fromString (js "2016,01,01") = Some (Throw DateStringFormat)
  /\ fromString (js "05/05/05") = Some (Throw DateStringFormat)
  /\ fromString (js "2016-o1-o1") = Some (Throw DateStringFormat)
  /\ (forall s, List.length s <> 8%nat -> List.length s <> 10%nat ->
                fromString s = Some (Throw DateStringFormat)).
Proof.
  repeat (split; [vm_compute; reflexivity |]).
  intros s H8 H10. apply fromString_other_length; [exact H8 | contradiction].
Qed.

(** C8: the two variants of [fromString] are meant to do the same on
    every string of length 8, both reading YYYYMMDD.  They do not: on
    "2016 1 1", eight characters that are not all digits, the variant of
    CalendarDate.ts builds 2016-01-01, against its own documentation and
    error message, where the variant of part_000 raises the format
    error. *)
Lemma C8_variants_differ :
  List.length (js "2016 1 1") = 8%nat
  /\ fromString (js "2016 1 1") = Some (Ok {| value := 736329 |})
  /\ Part000.fromString (js "2016 1 1") = Throw DateStringFormat
  /\ ~ same_outcome (fromString (js "2016 1 1"))
                    (Part000.fromString (js "2016 1 1")).
Proof.
  split; [reflexivity |].
  split; [vm_compute; reflexivity |].
  split; [vm_compute; reflexivity |].
  intros [[d [_ E]] | [e [e' [E _]]]].
  - vm_compute in E. discriminate.
  - vm_compute in E. discriminate.
Qed.

(** * Further properties of the class *)

(** ** Triples and ordinals *)

Lemma getters_exist (d : CalendarDate) :
  valid d ->
  exists y m dd, year d = Int y /\ month d = Int m /\ day d = Ok (Int dd).
Proof.
  destruct d as [v]. unfold valid. cbn [value]. intros H.
  destruct (decode_spec v H) as [y [m [dd [Ey [Em [Ed _]]]]]].
  exists y, m, dd. tauto.
Qed.

Lemma getters_value (d : CalendarDate) (y m dd : Z) :
  valid d -> year d = Int y -> month d = Int m -> day d = Ok (Int dd) ->
  1 <= y <= 9999 /\ 1 <= m <= 12
  /\ 1 <= dd <= monthLength (isLeapYear (Int y)) m
  /\ value d = jan1 y + monthStart (isLeapYear (Int y)) m + dd - 1.
Proof.
  destruct d as [v]. unfold valid. cbn [value]. intros H Ey Em Ed.
  destruct (decode_spec v H) as [y0 [m0 [d0 [Ey0 [Em0 [Ed0 Hrest]]]]]].
  rewrite Ey in Ey0. rewrite Em in Em0. rewrite Ed in Ed0.
  injection Ey0 as ->. injection Em0 as ->. injection Ed0 as ->.
  tauto.
Qed.

(** A valid date is determined by what its getters read. *)
Lemma getters_inj (a b : CalendarDate) (y m dd : Z) :
  valid a -> valid b ->
  year a = Int y -> month a = Int m -> day a = Ok (Int dd) ->
  year b = Int y -> month b = Int m -> day b = Ok (Int dd) ->
  a = b.
Proof.
  intros Ha Hb Ya Ma Da Yb Mb Db.
  destruct (getters_value a y m dd Ha Ya Ma Da) as [_ [_ [_ Va]]].
  destruct (getters_value b y m dd Hb Yb Mb Db) as [_ [_ [_ Vb]]].
  destruct a as [va], b as [vb]. cbn [value] in *. f_equal. lia.
Qed.

Lemma jan1_le (a b : Z) : a <= b -> jan1 a <= jan1 b.
Proof. intros H. unfold jan1. zdiv. Qed.

Lemma monthStart_first (leap : bool) : monthStart leap 1 = 0.
Proof. destruct leap; reflexivity. Qed.

Lemma monthStart_next (leap : bool) (m : Z) :
  1 <= m <= 11 ->
  monthStart leap (m + 1) = monthStart leap m + monthLength leap m.
Proof.
  intros H. assert (Hm : 1 <= m <= 12) by lia.
  each_month m Hm; try lia; destruct leap; reflexivity.
Qed.

Lemma monthStart_last (leap : bool) :
  monthStart leap 12 + monthLength leap 12 = yearLength leap.
Proof. destruct leap; reflexivity. Qed.

Lemma month_end_le (leap : bool) (m : Z) :
  1 <= m <= 12 -> monthStart leap m + monthLength leap m <= yearLength leap.
Proof. intros H. each_month m H; destruct leap; cbv; discriminate. Qed.

Lemma month_span_le (leap : bool) (m1 m2 : Z) :
  1 <= m1 -> m1 < m2 -> m2 <= 12 ->
  monthStart leap m1 + monthLength leap m1 <= monthStart leap m2.
Proof.
  intros H1 H12 H2.
  assert (Hm1 : 1 <= m1 <= 12) by lia. assert (Hm2 : 1 <= m2 <= 12) by lia.
  each_month m1 Hm1; each_month m2 Hm2; try lia;
    destruct leap; cbv; discriminate.
Qed.

(** The ordinal grows with the triple. *)
Lemma triple_lt_value (y1 m1 d1 y2 m2 d2 : Z) :
  1 <= y1 -> 1 <= m1 <= 12 -> 1 <= d1 <= monthLength (isLeapYear (Int y1)) m1 ->
  1 <= y2 -> 1 <= m2 <= 12 -> 1 <= d2 <= monthLength (isLeapYear (Int y2)) m2 ->
  triple_lt y1 m1 d1 y2 m2 d2 ->
  jan1 y1 + monthStart (isLeapYear (Int y1)) m1 + d1 - 1
  < jan1 y2 + monthStart (isLeapYear (Int y2)) m2 + d2 - 1.
Proof.
  intros Hy1 Hm1 Hd1 Hy2 Hm2 Hd2 [Hlt | [-> [Hlt | [-> Hlt]]]].
  - pose proof (jan1_succ y1 ltac:(lia)) as Hs.
    pose proof (jan1_le (y1 + 1) y2 ltac:(lia)).
    pose proof (month_end_le (isLeapYear (Int y1)) m1 Hm1).
    pose proof (monthStart_bounds (isLeapYear (Int y2)) m2 Hm2).
    lia.
  - pose proof (month_span_le (isLeapYear (Int y2)) m1 m2
                  ltac:(lia) Hlt ltac:(lia)).
    lia.
  - lia.
Qed.

(** The ordinals of two valid dates compare as their triples. *)
Lemma value_lt_iff (a b : CalendarDate) (ya ma da yb mb db : Z) :
  valid a -> valid b ->
  year a = Int ya -> month a = Int ma -> day a = Ok (Int da) ->
  year b = Int yb -> month b = Int mb -> day b = Ok (Int db) ->
  (value a < value b <-> triple_lt ya ma da yb mb db)
  /\ (value a = value b <-> ya = yb /\ ma = mb /\ da = db).
Proof.
  intros Ha Hb Ya Ma Da Yb Mb Db.
  destruct (getters_value a ya ma da Ha Ya Ma Da) as [Hya [Hma [Hda Va]]].
  destruct (getters_value b yb mb db Hb Yb Mb Db) as [Hyb [Hmb [Hdb Vb]]].
  pose proof (triple_lt_value ya ma da yb mb db
                ltac:(lia) Hma Hda ltac:(lia) Hmb Hdb) as Lab.
  pose proof (triple_lt_value yb mb db ya ma da
                ltac:(lia) Hmb Hdb ltac:(lia) Hma Hda) as Lba.
  rewrite <- Va, <- Vb in Lab, Lba.
  assert (Tri : triple_lt ya ma da yb mb db
                \/ (ya = yb /\ ma = mb /\ da = db)
                \/ triple_lt yb mb db ya ma da) by (unfold triple_lt; lia).
  assert (Eq : ya = yb /\ ma = mb /\ da = db -> value a = value b).
  { intros [-> [-> ->]]. lia. }
  split; split; try assumption; intros Hv.
  - destruct Tri as [T | [T | T]]; [exact T | | ];
      [specialize (Eq T) | specialize (Lba T)]; lia.
  - destruct Tri as [T | [T | T]]; [| exact T |];
      [specialize (Lab T) | specialize (Lba T)]; lia.
Qed.

(** ** Ordering and equality *)

(** X1: on valid dates [isBefore] is the calendar order of the triples the
    getters read, [isAfter] is its converse and [equals] holds exactly for
    equal triples. *)
Theorem X1_comparison_is_calendar_order
    (a b : CalendarDate) (ya ma da yb mb db : Z) :
  valid a -> valid b ->
  year a = Int ya -> month a = Int ma -> day a = Ok (Int da) ->
  year b = Int yb -> month b = Int mb -> day b = Ok (Int db) ->
  (isBefore a b = true <-> triple_lt ya ma da yb mb db)
  /\ (isAfter a b = true <-> triple_lt yb mb db ya ma da)
  /\ (equals a b = true <-> ya = yb /\ ma = mb /\ da = db)
  /\ (equals a b = true <-> a = b).
Proof.
  intros Ha Hb Ya Ma Da Yb Mb Db.
  destruct (value_lt_iff a b ya ma da yb mb db Ha Hb Ya Ma Da Yb Mb Db)
    as [Lab Eab].
  destruct (value_lt_iff b a yb mb db ya ma da Hb Ha Yb Mb Db Ya Ma Da)
    as [Lba _].
  unfold isBefore, isAfter, equals.
  rewrite Z.ltb_lt, Z.gtb_ltb, Z.ltb_lt, Z.eqb_eq.
  split; [exact Lab |]. split; [exact Lba |]. split; [exact Eab |].
  split.
  - intros Hv. destruct a as [va], b as [vb]. cbn [value] in Hv. now f_equal.
  - now intros ->.
Qed.

Lemma X1_comparison_is_calendar_order_witness :
  (isBefore {| value := 730909 |} {| value := 730970 |} = true
   <-> triple_lt 2001 2 28 2001 4 30)
  /\ (isAfter {| value := 730909 |} {| value := 730970 |} = true
      <-> triple_lt 2001 4 30 2001 2 28)
  /\ (equals {| value := 730909 |} {| value := 730970 |} = true
      <-> 2001 = 2001 /\ 2 = 4 /\ 28 = 30)
  /\ (equals {| value := 730909 |} {| value := 730970 |} = true
      <-> {| value := 730909 |} = {| value := 730970 |}).
Proof.
  apply (X1_comparison_is_calendar_order
           {| value := 730909 |} {| value := 730970 |} 2001 2 28 2001 4 30).
  - unfold valid, MIN_VALUE, MAX_VALUE. cbn [value]. lia.
  - unfold valid, MIN_VALUE, MAX_VALUE. cbn [value]. lia.
  - vm_compute. reflexivity.
  - vm_compute. reflexivity.
  - vm_compute. reflexivity.
  - vm_compute. reflexivity.
  - vm_compute. reflexivity.
  - vm_compute. reflexivity.
Defined.

(** ** What [create] accepts *)

Lemma yearDays_outside (y : Z) :
  exists b, yearDays (Int y) = Int b
            /\ (y <= 0 -> b <= 0) /\ (10000 <= y -> 3652425 <= b).
Proof.
  destruct (yearDays_any y) as [a [b [c [E [Ha [Hb [Hc Hq]]]]]]].
  eexists. split; [exact E |].
  destruct (Z_le_gt_dec (- 1000000000) y) as [Hl | Hl]; [| lia].
  destruct (Z_le_gt_dec y 1000000000) as [Hu | Hu]; [| lia].
  destruct (Hq ltac:(lia)) as [-> [-> ->]]. split; intros; zdiv.
Qed.

Lemma index_outside (m : Z) :
  m < 1 \/ 12 < m -> index MONTH_SUMS_NORMAL_YEAR (Int m) = NaN.
Proof.
  intros H. unfold index. destruct (Z.ltb_spec m 0); [reflexivity |].
  destruct (Z.eq_dec m 0) as [-> | ?]; [reflexivity |].
  apply nth_overflow. change (List.length MONTH_SUMS_NORMAL_YEAR) with 13%nat.
  lia.
Qed.

Lemma create_day_error (y m dd : Z) :
  dd <= 0 \/ daysInMonth (Int y) (Int m) < dd ->
  create (Int y) (Int m) (Int dd) = Throw DayOutOfRange.
Proof.
  intros H. unfold create, tripletToDaysValue. cbn [nle ngt nlt].
  destruct (Z.leb_spec dd 0); [reflexivity |].
  destruct (Z.ltb_spec (daysInMonth (Int y) (Int m)) dd); [reflexivity | lia].
Qed.

Lemma create_month_error (y m dd : Z) :
  1 <= dd <= daysInMonth (Int y) (Int m) -> m < 1 \/ 12 < m ->
  create (Int y) (Int m) (Int dd) = Throw NonIntegerDateValue.
Proof.
  intros Hd Hm. unfold create, tripletToDaysValue. cbn [nle ngt nlt].
  destruct (Z.leb_spec dd 0); [lia |].
  destruct (Z.ltb_spec (daysInMonth (Int y) (Int m)) dd); [lia |].
  cbn [orb]. rewrite (index_outside m Hm).
  destruct (yearDays_outside y) as [b [-> _]]. cbn [nadd nsub].
  destruct (isLeapYear (Int y) && (2 <? m)); reflexivity.
Qed.

Lemma create_year_error (y m dd : Z) :
  1 <= dd <= daysInMonth (Int y) (Int m) -> 1 <= m <= 12 ->
  y < 1 \/ 9999 < y ->
  exists v, create (Int y) (Int m) (Int dd) = Throw (DateValueOutOfRange (Int v))
            /\ (v < 366 \/ 3652424 < v).
Proof.
  intros Hd Hm Hy. unfold create, tripletToDaysValue. cbn [nle ngt nlt].
  destruct (Z.leb_spec dd 0); [lia |].
  destruct (Z.ltb_spec (daysInMonth (Int y) (Int m)) dd); [lia |].
  cbn [orb]. rewrite daysInMonth_Int in Hd.
  destruct (yearDays_outside y) as [b [-> [Hlo Hhi]]].
  pose proof (monthStart_bounds (isLeapYear (Int y)) m Hm) as Hs.
  pose proof (month_end_le (isLeapYear (Int y)) m Hm) as He.
  unfold monthStart in Hs, He.
  assert (Hi : exists s, index MONTH_SUMS_NORMAL_YEAR (Int m) = Int s).
  { each_month m Hm; eexists; reflexivity. }
  destruct Hi as [s Es]. rewrite Es in *. cbn [nadd nsub].
  destruct (isLeapYear (Int y) && (2 <? m)); cbn [bind yearLength] in *;
    eexists; rewrite new_CalendarDate_Int;
    match goal with
    | |- context [(?v <? 366) || (3652424 <? ?v)] =>
        destruct (Z.ltb_spec v 366); destruct (Z.ltb_spec 3652424 v);
        cbn [orb]; try (split; [reflexivity | lia]);
        exfalso; destruct (isLeapYear (Int y)); cbn [yearLength] in *; lia
    end.
Qed.

Lemma create_Ok_inv (y m dd : Z) (d : CalendarDate) :
  create (Int y) (Int m) (Int dd) = Ok d ->
  1 <= y <= 9999 /\ 1 <= m <= 12
  /\ 1 <= dd <= monthLength (isLeapYear (Int y)) m.
Proof.
  intros E. rewrite <- daysInMonth_Int.
  destruct (Z_le_gt_dec dd 0) as [D0 | D0];
    [rewrite create_day_error in E by lia; discriminate |].
  destruct (Z_lt_le_dec (daysInMonth (Int y) (Int m)) dd) as [D1 | D1];
    [rewrite create_day_error in E by lia; discriminate |].
  destruct (Z_lt_le_dec m 1) as [M0 | M0];
    [rewrite create_month_error in E by lia; discriminate |].
  destruct (Z_lt_le_dec 12 m) as [M1 | M1];
    [rewrite create_month_error in E by lia; discriminate |].
  destruct (Z_lt_le_dec y 1) as [Y0 | Y0];
    [destruct (create_year_error y m dd) as [v [Ev _]]; try lia;
     rewrite Ev in E; discriminate |].
  destruct (Z_lt_le_dec 9999 y) as [Y1 | Y1];
    [destruct (create_year_error y m dd) as [v [Ev _]]; try lia;
     rewrite Ev in E; discriminate |].
  lia.
Qed.

(** [create] on the triple read from a valid date gives the date back. *)
Lemma create_of_getters (d : CalendarDate) (y m dd : Z) :
  valid d -> year d = Int y -> month d = Int m -> day d = Ok (Int dd) ->
  create (Int y) (Int m) (Int dd) = Ok d.
Proof.
  intros Hv Ey Em Ed.
  destruct (getters_value d y m dd Hv Ey Em Ed) as [Hy [Hm [Hd Ev]]].
  destruct (create_getters y m dd Hy Hm Hd) as [d' [E [Hv' [Y [M D]]]]].
  rewrite E. f_equal. symmetry.
  exact (getters_inj d d' y m dd Hv Hv' Ey Em Ed Y M D).
Qed.

(** X2: [create] turns exactly the valid triples into dates; a day out of
    the month raises "Day out of range.", a month outside 1..12 (with an
    acceptable day) raises "Non-integer date value.", and a year outside
    1..9999 raises the out-of-range error.  The years are taken within
    10^9 of zero, where the arithmetic of doubles is that of integers. *)
Theorem X2_create_outcomes (y m dd : Z) :
  - 1000000000 <= y <= 1000000000 ->
  ((exists d, create (Int y) (Int m) (Int dd) = Ok d)
   <-> 1 <= y <= 9999 /\ 1 <= m <= 12
       /\ 1 <= dd <= daysInMonth (Int y) (Int m))
  /\ (dd <= 0 \/ daysInMonth (Int y) (Int m) < dd ->
      create (Int y) (Int m) (Int dd) = Throw DayOutOfRange)
  /\ (1 <= dd <= daysInMonth (Int y) (Int m) -> m < 1 \/ 12 < m ->
      create (Int y) (Int m) (Int dd) = Throw NonIntegerDateValue)
  /\ (1 <= dd <= daysInMonth (Int y) (Int m) -> 1 <= m <= 12 ->
      y < 1 \/ 9999 < y ->
      exists v,
        create (Int y) (Int m) (Int dd) = Throw (DateValueOutOfRange (Int v))
        /\ (v < 366 \/ 3652424 < v)).
Proof.
  intros _.
  split; [| split; [apply create_day_error |
                    split; [apply create_month_error | apply create_year_error]]].
  split.
  - intros [d E]. rewrite daysInMonth_Int. exact (create_Ok_inv y m dd d E).
  - intros [Hy [Hm Hd]]. rewrite daysInMonth_Int in Hd.
    destruct (create_getters y m dd Hy Hm Hd) as [d [E _]]. now exists d.
Qed.

Lemma X2_create_outcomes_witness :
  ((exists d, create (Int 2016) (Int 13) (Int 1) = Ok d)
   <-> 1 <= 2016 <= 9999 /\ 1 <= 13 <= 12
       /\ 1 <= 1 <= daysInMonth (Int 2016) (Int 13))
  /\ (1 <= 0 \/ daysInMonth (Int 2016) (Int 13) < 1 ->
      create (Int 2016) (Int 13) (Int 1) = Throw DayOutOfRange)
  /\ (1 <= 1 <= daysInMonth (Int 2016) (Int 13) -> 13 < 1 \/ 12 < 13 ->
      create (Int 2016) (Int 13) (Int 1) = Throw NonIntegerDateValue)
  /\ (1 <= 1 <= daysInMonth (Int 2016) (Int 13) -> 1 <= 13 <= 12 ->
      2016 < 1 \/ 9999 < 2016 ->
      exists v,
        create (Int 2016) (Int 13) (Int 1)
        = Throw (DateValueOutOfRange (Int v))
        /\ (v < 366 \/ 3652424 < v)).
Proof. apply (X2_create_outcomes 2016 13 1). lia. Defined.

(** ** Strings of the canonical shape *)

Lemma create_not_format (y m dd : num) :
  create y m dd <> Throw DateStringFormat.
Proof.
  unfold create, tripletToDaysValue.
  destruct (nle dd (Int 0) || ngt dd (Int (daysInMonth y m)));
    [discriminate |].
  destruct (isLeapYear y && ngt m (Int 2)); cbn [bind]; unfold new_CalendarDate;
    match goal with
    | |- (if ?c then _ else match ?v with _ => _ end) <> _ =>
        destruct c; [discriminate | destruct v; discriminate]
    end.
Qed.

Lemma part000_fromString_iso (y m dd : Z) :
  0 <= y <= 9999 -> 0 <= m <= 99 -> 0 <= dd <= 99 ->
  Part000.fromString (iso y m dd) = create (Int y) (Int m) (Int dd).
Proof.
  intros Hy Hm Hd.
  destruct (four_digits_spec y Hy) as [_ [_ Ry]].
  destruct (two_digits_spec m Hm) as [_ [_ Rm]].
  destruct (two_digits_spec dd Hd) as [_ [_ Rd]].
  unfold Part000.fromString.
  change (List.length (iso y m dd)) with 10%nat.
  change (charAt_is (iso y m dd) 4 45) with true.
  change (charAt_is (iso y m dd) 7 45) with true.
  change (Part000.extractInt (iso y m dd) 0 4) with (parseInt (four_digits y)).
  change (Part000.extractInt (iso y m dd) 5 7) with (parseInt (two_digits m)).
  change (Part000.extractInt (iso y m dd) 8 10) with (parseInt (two_digits dd)).
  cbn [Nat.eqb andb]. rewrite Ry, Rm, Rd. reflexivity.
Qed.

Lemma digit_not_hyphen (k : Z) : 0 <= k -> N.eqb (digit k) 45 = false.
Proof. intros H. apply N.eqb_neq. unfold digit. lia. Qed.

Lemma removeHyphens_iso (y m dd : Z) :
  0 <= y -> 0 <= m -> 0 <= dd ->
  removeHyphens (iso y m dd) = iso_basic y m dd.
Proof.
  intros Hy Hm Hd.
  unfold removeHyphens, iso, iso_basic, four_digits, two_digits.
  cbn [app filter N.eqb Pos.eqb negb].
  rewrite !digit_not_hyphen by zdiv. reflexivity.
Qed.

(** X3: a string of the canonical shape (digits with hyphens at 4 and 7)
    is never refused with the format error: [fromString] hands its three
    fields to [create], so a string such as an impossible day or month
    raises the error of [create] instead. *)
Theorem X3_fromString_canonical_is_create (s : jsstring) :
  is_canonical s = true ->
  exists y m dd,
    0 <= y <= 9999 /\ 0 <= m <= 99 /\ 0 <= dd <= 99 /\ s = iso y m dd
    /\ fromString s = Some (create (Int y) (Int m) (Int dd))
    /\ fromString s <> Some (Throw DateStringFormat).
Proof.
  intros Hc.
  destruct (is_canonical_iso s Hc) as [y [m [dd [Hy [Hm [Hd ->]]]]]].
  exists y, m, dd.
  assert (E : fromString (iso y m dd) = Some (create (Int y) (Int m) (Int dd)))
    by (now apply fromString_iso).
  repeat (split; [assumption || reflexivity |]).
  rewrite E. intros F. injection F as F. exact (create_not_format _ _ _ F).
Qed.

Lemma X3_fromString_canonical_is_create_witness :
  exists y m dd,
    0 <= y <= 9999 /\ 0 <= m <= 99 /\ 0 <= dd <= 99
    /\ js "2016-02-30" = iso y m dd
    /\ fromString (js "2016-02-30") = Some (create (Int y) (Int m) (Int dd))
    /\ fromString (js "2016-02-30") <> Some (Throw DateStringFormat).
Proof.
  apply (X3_fromString_canonical_is_create (js "2016-02-30")).
  vm_compute. reflexivity.
Defined.

(** X4: dropping the two hyphens of a canonical string does not change
    what [fromString] does with it: YYYYMMDD and YYYY-MM-DD of the same
    digits give the same date or the same error. *)
Theorem X4_basic_form_same_as_hyphenated (s : jsstring) :
  is_canonical s = true ->
  List.length (removeHyphens s) = 8%nat
  /\ fromString (removeHyphens s) = fromString s.
Proof.
  intros Hc.
  destruct (is_canonical_iso s Hc) as [y [m [dd [Hy [Hm [Hd ->]]]]]].
  rewrite removeHyphens_iso by lia. split; [reflexivity |].
  rewrite fromString_basic, fromString_iso by assumption. reflexivity.
Qed.

Lemma X4_basic_form_same_as_hyphenated_witness :
  List.length (removeHyphens (js "1794-08-15")) = 8%nat
  /\ fromString (removeHyphens (js "1794-08-15"))
     = fromString (js "1794-08-15").
Proof.
  apply (X4_basic_form_same_as_hyphenated (js "1794-08-15")).
  vm_compute. reflexivity.
Defined.

(** X5: on every string of the canonical shape the parser of part_000
    and the parser of CalendarDate.ts do the same: the same date or the
    same error. *)
Theorem X5_variants_agree_on_canonical (s : jsstring) :
  is_canonical s = true -> fromString s = Some (Part000.fromString s).
Proof.
  intros Hc.
  destruct (is_canonical_iso s Hc) as [y [m [dd [Hy [Hm [Hd ->]]]]]].
  rewrite part000_fromString_iso by assumption.
  now apply fromString_iso.
Qed.

Lemma X5_variants_agree_on_canonical_witness :
  fromString (js "9999-12-31") = Some (Part000.fromString (js "9999-12-31")).
Proof.
  apply (X5_variants_agree_on_canonical (js "9999-12-31")).
  vm_compute. reflexivity.
Defined.

(** ** Days: day of year, day of week, the next day *)


Lemma dayOfYear_value (d : CalendarDate) (y m dd : Z) :
  valid d -> year d = Int y -> month d = Int m -> day d = Ok (Int dd) ->
  dayOfYear d = Ok (Int (monthStart (isLeapYear (Int y)) m + dd - 1))
  /\ create (Int y) (Int 1) (Int 1) = Ok {| value := jan1 y |}.
Proof.
  intros Hv Ey Em Ed.
  destruct (getters_value d y m dd Hv Ey Em Ed) as [Hy [Hm [Hd Ev]]].
  pose proof (monthLength_bounds (isLeapYear (Int y)) 1 ltac:(lia)) as H1.
  assert (Et : tripletToDaysValue (Int y) (Int 1) (Int 1) = Ok (Int (jan1 y))).
  { rewrite tripletToDaysValue_valid by lia.
    rewrite monthStart_first. f_equal. f_equal. lia. }
  split.
  - unfold dayOfYear. rewrite Ey, Et. cbn [bind nsub]. f_equal. f_equal. lia.
  - unfold create. rewrite Et. cbn [bind]. apply new_CalendarDate_valid.
    pose proof (jan1_lower y ltac:(lia)).
    pose proof (jan1_le y 9999 ltac:(lia)).
    change (jan1 9999) with 3652060 in *. unfold MIN_VALUE, MAX_VALUE. lia.
Qed.

(** X6: on a valid date [dayOfYear] is the distance in days from January 1
    of the same year, from 0 to 364 (365 in a leap year); it is 0 exactly
    on January 1 and maximal exactly on December 31. *)
Theorem X6_dayOfYear_spec (d : CalendarDate) (y m dd : Z) :
  valid d -> year d = Int y -> month d = Int m -> day d = Ok (Int dd) ->
  exists o j,
    dayOfYear d = Ok (Int o)
    /\ create (Int y) (Int 1) (Int 1) = Ok j /\ o = value d - value j
    /\ 0 <= o <= (if isLeapYear (Int y) then 365 else 364)
    /\ (o = 0 <-> m = 1 /\ dd = 1)
    /\ (o = (if isLeapYear (Int y) then 365 else 364) <-> m = 12 /\ dd = 31).
Proof.
  intros Hv Ey Em Ed.
  destruct (getters_value d y m dd Hv Ey Em Ed) as [Hy [Hm [Hd Ev]]].
  destruct (dayOfYear_value d y m dd Hv Ey Em Ed) as [Eo Ej].
  set (leap := isLeapYear (Int y)) in *.
  pose proof (month_end_le leap m Hm) as He.
  pose proof (monthStart_bounds leap m Hm) as Hs.
  pose proof (monthStart_first leap) as H1.
  pose proof (monthStart_last leap) as H12.
  assert (Hlen12 : monthLength leap 12 = 31) by (destruct leap; reflexivity).
  assert (Hlen1 : monthLength leap 1 = 31) by (destruct leap; reflexivity).
  assert (Hmax : yearLength leap - 1 = if leap then 365 else 364)
    by (destruct leap; reflexivity).
  rewrite <- Hmax.
  exists (monthStart leap m + dd - 1), {| value := jan1 y |}.
  split; [exact Eo |]. split; [exact Ej |]. cbn [value].
  split; [lia |]. split; [lia |]. split.
  - split.
    + intros H0. destruct (Z.eq_dec m 1) as [-> | Hne]; [lia |].
      pose proof (month_span_le leap 1 m ltac:(lia) ltac:(lia) ltac:(lia)).
      lia.
    + intros [-> ->]. lia.
  - split.
    + intros H0. destruct (Z.eq_dec m 12) as [-> | Hne]; [lia |].
      pose proof (month_span_le leap m 12 ltac:(lia) ltac:(lia) ltac:(lia)).
      lia.
    + intros [-> ->]. lia.
Qed.

Lemma X6_dayOfYear_spec_witness :
  exists o j,
    dayOfYear {| value := 729389 |} = Ok (Int o)
    /\ create (Int 1996) (Int 1) (Int 1) = Ok j
    /\ o = value {| value := 729389 |} - value j
    /\ 0 <= o <= (if isLeapYear (Int 1996) then 365 else 364)
    /\ (o = 0 <-> 12 = 1 /\ 31 = 1)
    /\ (o = (if isLeapYear (Int 1996) then 365 else 364)
        <-> 12 = 12 /\ 31 = 31).
Proof.
  apply (X6_dayOfYear_spec {| value := 729389 |} 1996 12 31).
  - unfold valid, MIN_VALUE, MAX_VALUE. cbn [value]. lia.
  - vm_compute. reflexivity.
  - vm_compute. reflexivity.
  - vm_compute. reflexivity.
Defined.



(** X8: on every valid date but the last one, [addDays(1)] is the next day
    of the calendar: the next day of the month, else the first of the next
    month, else January 1 of the next year. *)
Theorem X8_addDays_one_is_next_day (d : CalendarDate) (y m dd : Z) :
  valid d -> year d = Int y -> month d = Int m -> day d = Ok (Int dd) ->
  value d < 3652424 ->
  exists d',
    addDays d (Int 1) = Ok d'
    /\ (year d', month d', day d')
       = (let '(y', m', dd') := nextDay y m dd in
          (Int y', Int m', Ok (Int dd'))).
Proof.
  intros Hv Ey Em Ed Hlast.
  destruct (getters_value d y m dd Hv Ey Em Ed) as [Hy [Hm [Hd Ev]]].
  set (leap := isLeapYear (Int y)) in *.
  exists {| value := value d + 1 |}. split.
  { unfold addDays. cbn [nadd]. apply new_CalendarDate_valid.
    unfold valid, MIN_VALUE, MAX_VALUE in *. lia. }
  unfold nextDay. rewrite daysInMonth_Int. fold leap.
  destruct (Z.ltb_spec dd (monthLength leap m)) as [Hlt | Hge].
  - destruct (encode_spec y m (dd + 1) Hy Hm ltac:(fold leap; lia))
      as [_ [Y [M D]]].
    fold leap in Y, M, D.
    replace (jan1 y + monthStart leap m + (dd + 1) - 1) with (value d + 1)
      in Y, M, D by lia.
    now rewrite Y, M, D.
  - destruct (Z.ltb_spec m 12) as [Hm12 | Hm12].
    + pose proof (monthLength_bounds leap (m + 1) ltac:(lia)).
      destruct (encode_spec y (m + 1) 1 Hy ltac:(lia) ltac:(fold leap; lia))
        as [_ [Y [M D]]].
      fold leap in Y, M, D. rewrite monthStart_next in Y, M, D by lia.
      replace (jan1 y + (monthStart leap m + monthLength leap m) + 1 - 1)
        with (value d + 1) in Y, M, D by lia.
      now rewrite Y, M, D.
    + assert (m = 12) by lia. subst m.
      pose proof (monthStart_last leap) as Hl.
      pose proof (jan1_succ y ltac:(lia)) as Hs. fold leap in Hs.
      assert (Hy1 : y + 1 <= 9999).
      { destruct (Z_le_gt_dec (y + 1) 9999) as [? | Hbig]; [assumption |].
        pose proof (jan1_le 10000 (y + 1) ltac:(lia)) as Hj.
        change (jan1 10000) with 3652425 in Hj. lia. }
      pose proof (monthLength_bounds (isLeapYear (Int (y + 1))) 1 ltac:(lia)).
      destruct (encode_spec (y + 1) 1 1 ltac:(lia) ltac:(lia) ltac:(lia))
        as [_ [Y [M D]]].
      rewrite monthStart_first in Y, M, D.
      replace (jan1 (y + 1) + 0 + 1 - 1) with (value d + 1) in Y, M, D by lia.
      now rewrite Y, M, D.
Qed.

Lemma X8_addDays_one_is_next_day_witness :
  exists d',
    addDays {| value := 730544 |} (Int 1) = Ok d'
    /\ (year d', month d', day d')
       = (let '(y', m', dd') := nextDay 2000 2 29 in
          (Int y', Int m', Ok (Int dd'))).
Proof.
  apply (X8_addDays_one_is_next_day {| value := 730544 |} 2000 2 29).
  - unfold valid, MIN_VALUE, MAX_VALUE. cbn [value]. lia.
  - vm_compute. reflexivity.
  - vm_compute. reflexivity.
  - vm_compute. reflexivity.
  - cbn [value]. lia.
Defined.



(** ** Epoch conversions *)



(** ** Years and months *)

(** What [addYears] calls [create] with. *)
Lemma addYears_unfold (d : CalendarDate) (n y m dd : Z) :
  year d = Int y -> month d = Int m -> day d = Ok (Int dd) ->
  addYears d (Int n)
  = if (m =? 2) && (dd =? 29) && negb (isLeapYear (Int (y + n)))
    then create (Int (y + n)) (Int 3) (Int 1)
    else create (Int (y + n)) (Int m) (Int dd).
Proof.
  intros Ey Em Ed. unfold addYears. rewrite Ey, Em, Ed.
  cbn [nadd neqb bind].
  destruct (Z.eqb_spec m 2) as [-> | _]; [| reflexivity].
  destruct (dd =? 29); [| reflexivity].
  destruct (isLeapYear (Int (y + n))); reflexivity.
Qed.

(** The day that [addYears] passes on fits the month of the new year. *)
Lemma addYears_day_fits (y y' m dd : Z) :
  1 <= m <= 12 -> 1 <= dd <= monthLength (isLeapYear (Int y)) m ->
  (m =? 2) && (dd =? 29) && negb (isLeapYear (Int y')) = false ->
  1 <= dd <= monthLength (isLeapYear (Int y')) m.
Proof.
  intros Hm Hd Hc.
  destruct (Z.eqb_spec m 2) as [-> | Hm2].
  - rewrite monthLength_feb in *.
    destruct (Z.eqb_spec dd 29) as [-> | ?];
      destruct (isLeapYear (Int y')); destruct (isLeapYear (Int y));
      cbn in Hc; try discriminate; lia.
  - now rewrite (monthLength_not_feb _ (isLeapYear (Int y)) m Hm2).
Qed.

Lemma daysInMonth_bounds (y m : num) : 28 <= daysInMonth y m <= 31.
Proof.
  unfold daysInMonth, optimizedDaysInMonth.
  destruct (neqb m (Int 2)); [destruct (isLeapYear y); lia |].
  destruct (neqb (band m (Int 1)) (sar m 3)); lia.
Qed.

(** X11: on a valid date of year y, [addYears(n)] returns a date exactly
    when y + n is in 1..9999; otherwise it raises the out-of-range error
    of the constructor, below 366 or above 3652424, never a clamped
    date. *)
Theorem X11_addYears_range (d : CalendarDate) (n y m dd : Z) :
  valid d -> year d = Int y -> month d = Int m -> day d = Ok (Int dd) ->
  - 1000000000 <= n <= 1000000000 ->
  ((exists d', addYears d (Int n) = Ok d') <-> 1 <= y + n <= 9999)
  /\ (y + n < 1 \/ 9999 < y + n ->
      exists v,
        addYears d (Int n) = Throw (DateValueOutOfRange (Int v))
        /\ (v < 366 \/ 3652424 < v)).
Proof.
  intros Hv Ey Em Ed _.
  destruct (getters_value d y m dd Hv Ey Em Ed) as [Hy [Hm [Hd _]]].
  rewrite (addYears_unfold d n y m dd Ey Em Ed).
  destruct ((m =? 2) && (dd =? 29) && negb (isLeapYear (Int (y + n)))) eqn:Ec.
  - assert (H3 : 1 <= 1 <= daysInMonth (Int (y + n)) (Int 3)).
    { rewrite daysInMonth_Int.
      pose proof (monthLength_bounds (isLeapYear (Int (y + n))) 3 ltac:(lia)).
      lia. }
    split.
    + split.
      * intros [d' E]. destruct (create_Ok_inv _ _ _ _ E). lia.
      * intros Hr. rewrite daysInMonth_Int in H3.
        destruct (create_getters (y + n) 3 1 Hr ltac:(lia) H3) as [d' [E _]].
        now exists d'.
    + intros Hr. apply create_year_error; [exact H3 | lia | exact Hr].
  - pose proof (addYears_day_fits y (y + n) m dd Hm Hd Ec) as Hfit.
    split.
    + split.
      * intros [d' E]. destruct (create_Ok_inv _ _ _ _ E). lia.
      * intros Hr.
        destruct (create_getters (y + n) m dd Hr Hm Hfit) as [d' [E _]].
        now exists d'.
    + intros Hr. apply create_year_error;
        [rewrite daysInMonth_Int; exact Hfit | exact Hm | exact Hr].
Qed.

Lemma X11_addYears_range_witness :
  ((exists d', addYears {| value := 730544 |} (Int 8000) = Ok d')
   <-> 1 <= 2000 + 8000 <= 9999)
  /\ (2000 + 8000 < 1 \/ 9999 < 2000 + 8000 ->
      exists v,
        addYears {| value := 730544 |} (Int 8000)
        = Throw (DateValueOutOfRange (Int v))
        /\ (v < 366 \/ 3652424 < v)).
Proof.
  apply (X11_addYears_range {| value := 730544 |} 8000 2000 2 29).
  - unfold valid, MIN_VALUE, MAX_VALUE. cbn [value]. lia.
  - vm_compute. reflexivity.
  - vm_compute. reflexivity.
  - vm_compute. reflexivity.
  - lia.
Defined.



(** What [addMonths] calls [create] with: the 32-bit year of the flat
    index, the month of its remainder, and the day held down to the length
    of that month. *)
Lemma addMonths_call (d : CalendarDate) (n y m dd : Z) :
  year d = Int y -> month d = Int m -> day d = Ok (Int dd) ->
  addMonths d (Int n)
  = create (Int (ToInt32 (Z.quot (monthIndex y m + n) 12)))
      (Int (Z.rem (monthIndex y m + n) 12 + 1))
      (Int (Z.min dd
              (daysInMonth (Int (ToInt32 (Z.quot (monthIndex y m + n) 12)))
                 (Int (Z.rem (monthIndex y m + n) 12 + 1))))).
Proof.
  intros Ey Em Ed. unfold addMonths, monthIndex. rewrite Ey, Em, Ed.
  cbn [nadd nsub nmul quot_or0 nrem bind Math_max].
  replace (y * 12 + m - 1 + n) with (y * 12 + (m - 1) + n) by lia.
  f_equal. f_equal. lia.
Qed.

Lemma min_day_fits (dd : Z) (y m : num) :
  1 <= dd -> 1 <= Z.min dd (daysInMonth y m) <= daysInMonth y m.
Proof. intros H. pose proof (daysInMonth_bounds y m). lia. Qed.

(** The flat index of a date that [addMonths] returned. *)
Lemma addMonths_Ok_index (d d' : CalendarDate) (n y m dd : Z) :
  valid d -> year d = Int y -> month d = Int m -> day d = Ok (Int dd) ->
  - 1000000000 <= n <= 1000000000 ->
  addMonths d (Int n) = Ok d' ->
  12 <= monthIndex y m + n <= 119999.
Proof.
  intros Hv Ey Em Ed Hn E.
  destruct (getters_value d y m dd Hv Ey Em Ed) as [Hy [Hm _]].
  rewrite (addMonths_call d n y m dd Ey Em Ed) in E.
  destruct (create_Ok_inv _ _ _ _ E) as [Hny [Hnm _]].
  unfold monthIndex in *.
  rewrite ToInt32_small in Hny by zdiv. zdiv.
Qed.

(** Inside the supported years [addMonths] returns the date of the new
    year and month, with the day held down to the length of the month. *)
Lemma addMonths_in_range (d : CalendarDate) (n y m dd : Z) :
  valid d -> year d = Int y -> month d = Int m -> day d = Ok (Int dd) ->
  12 <= monthIndex y m + n <= 119999 ->
  exists d',
    addMonths d (Int n) = Ok d' /\ valid d'
    /\ year d' = Int ((monthIndex y m + n) / 12)
    /\ month d' = Int ((monthIndex y m + n) mod 12 + 1)
    /\ day d'
       = Ok (Int (Z.min dd
                    (daysInMonth (Int ((monthIndex y m + n) / 12))
                       (Int ((monthIndex y m + n) mod 12 + 1))))).
Proof.
  intros Hv Ey Em Ed Hi.
  destruct (getters_value d y m dd Hv Ey Em Ed) as [Hy [Hm [Hd _]]].
  rewrite (addMonths_call d n y m dd Ey Em Ed).
  set (i := monthIndex y m + n) in *.
  rewrite quot_nonneg by lia. rewrite ToInt32_small by zdiv.
  rewrite Z.rem_mod_nonneg by lia.
  pose proof (min_day_fits dd (Int (i / 12)) (Int (i mod 12 + 1)) ltac:(lia))
    as Hfit.
  rewrite daysInMonth_Int in Hfit at 2.
  destruct (create_getters (i / 12) (i mod 12 + 1)
              (Z.min dd (daysInMonth (Int (i / 12)) (Int (i mod 12 + 1)))))
    as [d' Hd']; [zdiv | zdiv | exact Hfit |].
  exists d'. tauto.
Qed.



Lemma ToInt32_periodic (z k : Z) : ToInt32 (z + 4294967296 * k) = ToInt32 z.
Proof.
  unfold ToInt32. change (2 ^ 32) with 4294967296.
  rewrite (Z.mul_comm 4294967296 k), Z.mod_add by lia. reflexivity.
Qed.

(** X14: the year of [addMonths] goes through [| 0], so a month count
    beyond the 32-bit years is not refused: as long as the flat month index
    plus the count is not negative and stays within 2^53, where the sum of
    doubles is exact, adding 12 * 2^32 months any number of times changes
    nothing, and [addMonths(51539607552)] returns the receiver itself. *)
Theorem X14_addMonths_wraps_at_32_bits (d : CalendarDate) (n k y m dd : Z) :
  valid d -> year d = Int y -> month d = Int m -> day d = Ok (Int dd) ->
  0 <= monthIndex y m + n -> 0 <= k ->
  monthIndex y m + n + 51539607552 * k <= 9007199254740992 ->
  addMonths d (Int (n + 51539607552 * k)) = addMonths d (Int n)
  /\ addMonths d (Int 51539607552) = Ok d.
Proof.
  intros Hv Ey Em Ed Hi Hk _.
  destruct (getters_value d y m dd Hv Ey Em Ed) as [Hy [Hm [Hd _]]].
  assert (Hper : forall i j, 0 <= i -> 0 <= j ->
            ToInt32 (Z.quot (i + 51539607552 * j) 12) = ToInt32 (Z.quot i 12)
            /\ Z.rem (i + 51539607552 * j) 12 = Z.rem i 12).
  { intros i j H0 Hj.
    rewrite !quot_nonneg, !Z.rem_mod_nonneg by lia.
    replace (i + 51539607552 * j) with (i + 4294967296 * j * 12) by lia.
    rewrite Z.div_add, Z.mod_add by lia.
    now rewrite ToInt32_periodic. }
  split.
  - rewrite !(addMonths_call d _ y m dd Ey Em Ed).
    replace (monthIndex y m + (n + 51539607552 * k))
      with (monthIndex y m + n + 51539607552 * k) by lia.
    destruct (Hper (monthIndex y m + n) k Hi Hk) as [-> ->]. reflexivity.
  - rewrite (addMonths_call d _ y m dd Ey Em Ed).
    assert (H0 : 0 <= monthIndex y m) by (unfold monthIndex; lia).
    replace (monthIndex y m + 51539607552)
      with (monthIndex y m + 51539607552 * 1) by lia.
    destruct (Hper (monthIndex y m) 1 H0 ltac:(lia)) as [-> ->].
    unfold monthIndex in *.
    rewrite quot_nonneg, Z.rem_mod_nonneg by lia.
    replace ((y * 12 + (m - 1)) / 12) with y by zdiv.
    replace ((y * 12 + (m - 1)) mod 12 + 1) with m by zdiv.
    rewrite ToInt32_small by lia. rewrite daysInMonth_Int.
    rewrite Z.min_l by lia. now apply create_of_getters.
Qed.

Lemma X14_addMonths_wraps_at_32_bits_witness :
  addMonths {| value := 737425 |} (Int (1 + 51539607552 * 3))
  = addMonths {| value := 737425 |} (Int 1)
  /\ addMonths {| value := 737425 |} (Int 51539607552)
     = Ok {| value := 737425 |}.
Proof.
  apply (X14_addMonths_wraps_at_32_bits {| value := 737425 |} 1 3 2019 1 1).
  - unfold valid, MIN_VALUE, MAX_VALUE. cbn [value]. lia.
  - vm_compute. reflexivity.
  - vm_compute. reflexivity.
  - vm_compute. reflexivity.
  - vm_compute. discriminate.
  - lia.
  - vm_compute. discriminate.
Defined.

(** X15: for a month count of ordinary size, [addMonths] returns a date
    exactly when the new flat index falls in the years 1..9999.  Before
    year 1 it raises "Non-integer date value." when the truncated
    remainder is negative (the month is not in 1..12) and the out-of-range
    error otherwise; after year 9999 it raises the out-of-range error. *)
Theorem X15_addMonths_outcomes (d : CalendarDate) (n y m dd : Z) :
  valid d -> year d = Int y -> month d = Int m -> day d = Ok (Int dd) ->
  - 1000000000 <= n <= 1000000000 ->
  ((exists d', addMonths d (Int n) = Ok d')
   <-> 12 <= monthIndex y m + n <= 119999)
  /\ (monthIndex y m + n < 0 -> Z.rem (monthIndex y m + n) 12 <> 0 ->
      addMonths d (Int n) = Throw NonIntegerDateValue)
  /\ (monthIndex y m + n < 12 ->
      (monthIndex y m + n < 0 -> Z.rem (monthIndex y m + n) 12 = 0) ->
      exists v, addMonths d (Int n) = Throw (DateValueOutOfRange (Int v))
                /\ v < 366)
  /\ (119999 < monthIndex y m + n ->
      exists v, addMonths d (Int n) = Throw (DateValueOutOfRange (Int v))
                /\ 3652424 < v).
Proof.
  intros Hv Ey Em Ed Hn.
  destruct (getters_value d y m dd Hv Ey Em Ed) as [Hy [Hm [Hd _]]].
  assert (Hi : - 1000000012 <= monthIndex y m + n <= 1000120000)
    by (unfold monthIndex; lia).
  split; [| split; [| split]].
  - split.
    + intros [d' E]. exact (addMonths_Ok_index d d' n y m dd Hv Ey Em Ed Hn E).
    + intros Hr.
      destruct (addMonths_in_range d n y m dd Hv Ey Em Ed Hr) as [d' [E _]].
      now exists d'.
  - intros Hneg Hrem. rewrite (addMonths_call d n y m dd Ey Em Ed).
    apply create_month_error; [apply min_day_fits; lia | zdiv].
  - intros Hlow Hrem. rewrite (addMonths_call d n y m dd Ey Em Ed).
    set (i := monthIndex y m + n) in *.
    rewrite ToInt32_small by zdiv.
    destruct (create_year_error (Z.quot i 12) (Z.rem i 12 + 1)
                (Z.min dd (daysInMonth (Int (Z.quot i 12))
                             (Int (Z.rem i 12 + 1)))))
      as [v [E Hvv]]; [apply min_day_fits; lia | zdiv | zdiv |].
    exists v. split; [exact E |].
    destruct Hvv as [? | Hbig]; [assumption | exfalso].
    revert E. unfold create, tripletToDaysValue.
    destruct (nle _ _ || ngt _ _); [discriminate |].
    destruct (yearDays_outside (Z.quot i 12)) as [b [-> [Hb _]]].
    specialize (Hb ltac:(zdiv)).
    destruct (index MONTH_SUMS_NORMAL_YEAR (Int (Z.rem i 12 + 1)))
      as [| s] eqn:Es;
      [cbn [nadd nsub];
       match goal with |- bind (if ?c then _ else _) _ = _ -> _ => destruct c end;
       discriminate |].
    apply index_sums_le in Es.
    pose proof (daysInMonth_bounds (Int (Z.quot i 12)) (Int (Z.rem i 12 + 1))).
    cbn [nadd nsub].
    match goal with |- bind (if ?c then _ else _) _ = _ -> _ => destruct c end;
      cbn [bind nadd]; rewrite new_CalendarDate_Int;
      match goal with
      | |- (if ?c then _ else _) = _ -> _ => destruct c
      end; intros F; try discriminate; injection F as F; lia.
  - intros Hhigh. rewrite (addMonths_call d n y m dd Ey Em Ed).
    set (i := monthIndex y m + n) in *.
    rewrite ToInt32_small by zdiv.
    destruct (create_year_error (Z.quot i 12) (Z.rem i 12 + 1)
                (Z.min dd (daysInMonth (Int (Z.quot i 12))
                             (Int (Z.rem i 12 + 1)))))
      as [v [E Hvv]]; [apply min_day_fits; lia | zdiv | zdiv |].
    exists v. split; [exact E |].
    destruct Hvv as [Hsmall | ?]; [exfalso | assumption].
    revert E. unfold create, tripletToDaysValue.
    destruct (nle _ _ || ngt _ _); [discriminate |].
    destruct (yearDays_outside (Z.quot i 12)) as [b [-> [_ Hb]]].
    specialize (Hb ltac:(zdiv)).
    destruct (index MONTH_SUMS_NORMAL_YEAR (Int (Z.rem i 12 + 1)))
      as [| s] eqn:Es;
      [cbn [nadd nsub];
       match goal with |- bind (if ?c then _ else _) _ = _ -> _ => destruct c end;
       discriminate |].
    assert (Hs0 : 0 <= s).
    { assert (Hm' : 1 <= Z.rem i 12 + 1 <= 12) by zdiv.
      pose proof (monthStart_bounds false _ Hm') as Hb0.
      unfold monthStart in Hb0. rewrite Es in Hb0. cbn [andb] in Hb0. lia. }
    pose proof (daysInMonth_bounds (Int (Z.quot i 12)) (Int (Z.rem i 12 + 1))).
    cbn [nadd nsub].
    match goal with |- bind (if ?c then _ else _) _ = _ -> _ => destruct c end;
      cbn [bind nadd]; rewrite new_CalendarDate_Int;
      match goal with
      | |- (if ?c then _ else _) = _ -> _ => destruct c
      end; intros F; try discriminate; injection F as F;
      pose proof (min_day_fits dd (Int (Z.quot i 12)) (Int (Z.rem i 12 + 1))
                    ltac:(lia)); lia.
Qed.

Lemma X15_addMonths_outcomes_witness :
  ((exists d', addMonths {| value := 366 |} (Int (- 13)) = Ok d')
   <-> 12 <= monthIndex 1 1 + - 13 <= 119999)
  /\ (monthIndex 1 1 + - 13 < 0 -> Z.rem (monthIndex 1 1 + - 13) 12 <> 0 ->
      addMonths {| value := 366 |} (Int (- 13)) = Throw NonIntegerDateValue)
  /\ (monthIndex 1 1 + - 13 < 12 ->
      (monthIndex 1 1 + - 13 < 0 -> Z.rem (monthIndex 1 1 + - 13) 12 = 0) ->
      exists v, addMonths {| value := 366 |} (Int (- 13))
                = Throw (DateValueOutOfRange (Int v))
                /\ v < 366)
  /\ (119999 < monthIndex 1 1 + - 13 ->
      exists v, addMonths {| value := 366 |} (Int (- 13))
                = Throw (DateValueOutOfRange (Int v))
                /\ 3652424 < v).
Proof.
  apply (X15_addMonths_outcomes {| value := 366 |} (- 13) 1 1 1).
  - unfold valid, MIN_VALUE, MAX_VALUE. cbn [value]. lia.
  - vm_compute. reflexivity.
  - vm_compute. reflexivity.
  - vm_compute. reflexivity.
  - lia.
Defined.

(** X16: for a day of the month up to 28, which exists in every month,
    and month counts a and b within 10^9 of zero, [addMonths] adds up and
    can be undone: after [addMonths(a)] succeeded, [addMonths(b)] on the
    result does what [addMonths(a + b)] does on the receiver and
    [addMonths(-a)] gives the receiver back.  With a later
    day the clamping breaks this: 2000-01-31 plus 1 month plus 1 month is
    2000-03-29, plus 2 months is 2000-03-31. *)
Theorem X16_addMonths_composes :
  (forall d d1 a b y m dd,
      valid d -> year d = Int y -> month d = Int m -> day d = Ok (Int dd) ->
      dd <= 28 ->
      - 1000000000 <= a <= 1000000000 -> - 1000000000 <= b <= 1000000000 ->
      addMonths d (Int a) = Ok d1 ->
      addMonths d1 (Int b) = addMonths d (Int (a + b))
      /\ addMonths d1 (Int (- a)) = Ok d)
  /\ (exists d1 d2 d3,
         toString {| value := 730515 |} = Ok (js "2000-01-31")
         /\ addMonths {| value := 730515 |} (Int 1) = Ok d1
         /\ addMonths d1 (Int 1) = Ok d2
         /\ toString d2 = Ok (js "2000-03-29")
         /\ addMonths {| value := 730515 |} (Int 2) = Ok d3
         /\ toString d3 = Ok (js "2000-03-31")).
Proof.
  split.
  - intros d d1 a b y m dd Hv Ey Em Ed H28 Ha _ E.
    destruct (getters_value d y m dd Hv Ey Em Ed) as [Hy [Hm [Hd _]]].
    pose proof (addMonths_Ok_index d d1 a y m dd Hv Ey Em Ed Ha E) as Hi.
    destruct (addMonths_in_range d a y m dd Hv Ey Em Ed Hi)
      as [d1' [E' [Hv1 [Y1 [M1 D1]]]]].
    rewrite E in E'. injection E' as <-.
    set (i := monthIndex y m + a) in *.
    rewrite Z.min_l in D1
      by (pose proof (daysInMonth_bounds (Int (i / 12)) (Int (i mod 12 + 1)));
          lia).
    assert (Ei : monthIndex (i / 12) (i mod 12 + 1) = i)
      by (unfold monthIndex; zdiv).
    rewrite !(addMonths_call d1 _ _ _ dd Y1 M1 D1).
    rewrite (addMonths_call d (a + b) y m dd Ey Em Ed).
    rewrite Ei. subst i.
    replace (monthIndex y m + a + b) with (monthIndex y m + (a + b)) by lia.
    split; [reflexivity |].
    replace (monthIndex y m + a + - a) with (monthIndex y m) by lia.
    unfold monthIndex.
    rewrite quot_nonneg, Z.rem_mod_nonneg by lia.
    replace ((y * 12 + (m - 1)) / 12) with y by zdiv.
    replace ((y * 12 + (m - 1)) mod 12 + 1) with m by zdiv.
    rewrite ToInt32_small by lia. rewrite daysInMonth_Int.
    rewrite Z.min_l by lia. now apply create_of_getters.
  - eexists. eexists. eexists.
    split; [vm_compute; reflexivity |].
    split; [vm_compute; reflexivity |].
    split; [vm_compute; reflexivity |].
    split; [vm_compute; reflexivity |].
    split; [vm_compute; reflexivity |].
    vm_compute. reflexivity.
Qed.

Lemma X16_addMonths_composes_witness :
  addMonths {| value := 730086 |} (Int 13)
  = addMonths {| value := 730847 |} (Int (- 25 + 13))
  /\ addMonths {| value := 730086 |} (Int (- - 25)) = Ok {| value := 730847 |}.
Proof.
  apply (proj1 X16_addMonths_composes
           {| value := 730847 |} {| value := 730086 |} (- 25) 13
           2000 12 28).
  - unfold valid, MIN_VALUE, MAX_VALUE. cbn [value]. lia.
  - vm_compute. reflexivity.
  - vm_compute. reflexivity.
  - vm_compute. reflexivity.
  - lia.
  - lia.
  - lia.
  - vm_compute. reflexivity.
Defined.

(** ** Whole years between two dates *)

Lemma addYears_exists (e : CalendarDate) (n y m dd : Z) :
  valid e -> year e = Int y -> month e = Int m -> day e = Ok (Int dd) ->
  1 <= y + n <= 9999 -> exists d', addYears e (Int n) = Ok d'.
Proof.
  intros Hv Ey Em Ed Hr.
  destruct (getters_value e y m dd Hv Ey Em Ed) as [Hy [Hm [Hd _]]].
  rewrite (addYears_unfold e n y m dd Ey Em Ed).
  destruct ((m =? 2) && (dd =? 29) && negb (isLeapYear (Int (y + n)))) eqn:Ec.
  - pose proof (monthLength_bounds (isLeapYear (Int (y + n))) 3 ltac:(lia)).
    destruct (create_getters (y + n) 3 1 Hr ltac:(lia) ltac:(lia))
      as [d' [E _]].
    now exists d'.
  - pose proof (addYears_day_fits y (y + n) m dd Hm Hd Ec) as Hfit.
    destruct (create_getters (y + n) m dd Hr Hm Hfit) as [d' [E _]].
    now exists d'.
Qed.

(** The triple of a date that [addYears] returned. *)
Lemma addYears_result (e d' : CalendarDate) (n y m dd : Z) :
  valid e -> year e = Int y -> month e = Int m -> day e = Ok (Int dd) ->
  addYears e (Int n) = Ok d' ->
  valid d' /\ year d' = Int (y + n) /\ 1 <= y + n <= 9999
  /\ ((m = 2 /\ dd = 29 /\ isLeapYear (Int (y + n)) = false
       /\ month d' = Int 3 /\ day d' = Ok (Int 1))
      \/ (~ (m = 2 /\ dd = 29 /\ isLeapYear (Int (y + n)) = false)
          /\ month d' = Int m /\ day d' = Ok (Int dd))).
Proof.
  intros Hv Ey Em Ed E.
  rewrite (addYears_unfold e n y m dd Ey Em Ed) in E.
  destruct ((m =? 2) && (dd =? 29) && negb (isLeapYear (Int (y + n)))) eqn:Ec.
  - destruct (create_Ok_inv _ _ _ _ E) as [Hr [Hm3 Hd1]].
    destruct (create_getters (y + n) 3 1 Hr Hm3 Hd1) as [d2 [E2 [V [Y [M D]]]]].
    rewrite E in E2. injection E2 as <-.
    apply andb_prop in Ec. destruct Ec as [Ec Hl].
    apply andb_prop in Ec. destruct Ec as [E2 E29].
    apply Z.eqb_eq in E2, E29. apply negb_true_iff in Hl. tauto.
  - destruct (create_Ok_inv _ _ _ _ E) as [Hr [Hm' Hd']].
    destruct (create_getters (y + n) m dd Hr Hm' Hd') as [d2 [E2 [V [Y [M D]]]]].
    rewrite E in E2. injection E2 as <-.
    split; [exact V |]. split; [exact Y |]. split; [exact Hr |]. right.
    split; [| tauto]. intros [-> [-> Hl]]. rewrite Hl in Ec. discriminate.
Qed.

Lemma fullYearsSince_unfold (d e : CalendarDate) (yd md dd ye me de : Z) :
  year d = Int yd -> month d = Int md -> day d = Ok (Int dd) ->
  year e = Int ye -> month e = Int me -> day e = Ok (Int de) ->
  fullYearsSince d e
  = Ok (Int (yd - ye
             - (if (me <? md) || ((md =? me) && (de <=? dd)) then 0 else 1))).
Proof.
  intros Yd Md Dd Ye Me De. unfold fullYearsSince.
  rewrite Yd, Md, Dd, Ye, Me, De. cbn [ngt nlt neqb nle bind nsub].
  destruct (me <? md); [reflexivity |]. cbn [orb].
  destruct (md =? me); [| reflexivity]. cbn [bind andb].
  destruct (de <=? dd); reflexivity.
Qed.

(** X17: for a date d not before e, [d.fullYearsSince(e)] is the number n
    of whole years elapsed, counted as [addYears] counts them: n is not
    negative, [e.addYears(n)] is a date not after d and [e.addYears(n + 1)],
    when it is a date, is after d. *)
Theorem X17_fullYearsSince_counts_addYears
    (d e : CalendarDate) (yd md dd ye me de : Z) :
  valid d -> valid e ->
  year d = Int yd -> month d = Int md -> day d = Ok (Int dd) ->
  year e = Int ye -> month e = Int me -> day e = Ok (Int de) ->
  value e <= value d ->
  exists n d1,
    fullYearsSince d e = Ok (Int n) /\ 0 <= n
    /\ addYears e (Int n) = Ok d1 /\ value d1 <= value d
    /\ (forall d2, addYears e (Int (n + 1)) = Ok d2 -> value d < value d2).
Proof.
  intros Hd He Yd Md Dd Ye Me De Hle.
  destruct (getters_value d yd md dd Hd Yd Md Dd) as [Hyd [Hmd [Hdd _]]].
  destruct (getters_value e ye me de He Ye Me De) as [Hye [Hme [Hde _]]].
  destruct (value_lt_iff d e yd md dd ye me de Hd He Yd Md Dd Ye Me De)
    as [Lde _].
  assert (Nlt : ~ triple_lt yd md dd ye me de) by (rewrite <- Lde; lia).
  assert (Ffeb : md = 2 -> isLeapYear (Int yd) = false -> dd <= 28).
  { intros -> Hl. rewrite Hl, monthLength_feb in Hdd. lia. }
  rewrite (fullYearsSince_unfold d e yd md dd ye me de Yd Md Dd Ye Me De).
  set (off := (me <? md) || ((md =? me) && (de <=? dd))).
  assert (Hoff : if off then me < md \/ (md = me /\ de <= dd)
                 else md < me \/ (md = me /\ dd < de)).
  { subst off. destruct (Z.ltb_spec me md); cbn [orb]; [lia |].
    destruct (Z.eqb_spec md me); cbn [andb]; [| lia].
    destruct (Z.leb_spec de dd); lia. }
  set (n := yd - ye - (if off then 0 else 1)).
  assert (Hn : 0 <= n /\ ye + n <= yd /\ (if off then ye + n = yd
                                        else ye + n = yd - 1)).
  { subst n. unfold triple_lt in Nlt. destruct off; lia. }
  destruct (addYears_exists e n ye me de He Ye Me De ltac:(lia)) as [d1 E1].
  exists n, d1. split; [reflexivity |]. split; [lia |]. split; [exact E1 |].
  split.
  - destruct (addYears_result e d1 n ye me de He Ye Me De E1)
      as [V1 [Y1 [_ Hcase]]].
    assert (Nlt1 : forall m1 dd1,
               month d1 = Int m1 -> day d1 = Ok (Int dd1) ->
               ~ triple_lt yd md dd (ye + n) m1 dd1 -> value d1 <= value d).
    { intros m1 dd1 M1 D1 Hnot.
      destruct (value_lt_iff d d1 yd md dd (ye + n) m1 dd1
                  Hd V1 Yd Md Dd Y1 M1 D1) as [L _].
      rewrite <- L in Hnot. lia. }
    destruct Hcase as [[-> [-> [Hl [M1 D1]]]] | [_ [M1 D1]]].
    + apply (Nlt1 3 1 M1 D1). unfold triple_lt.
      destruct off.
      * destruct Hn as [_ [_ Hn]]. rewrite Hn in Hl.
        intros Ht.
        assert (md <> 2 \/ dd <= 28) by (destruct (Z.eq_dec md 2); auto).
        lia.
      * lia.
    + apply (Nlt1 me de M1 D1). unfold triple_lt. destruct off; lia.
  - intros d2 E2.
    destruct (addYears_result e d2 (n + 1) ye me de He Ye Me De E2)
      as [V2 [Y2 [_ Hcase]]].
    assert (Lt2 : forall m2 dd2,
               month d2 = Int m2 -> day d2 = Ok (Int dd2) ->
               triple_lt yd md dd (ye + (n + 1)) m2 dd2 -> value d < value d2).
    { intros m2 dd2 M2 D2 Ht.
      destruct (value_lt_iff d d2 yd md dd (ye + (n + 1)) m2 dd2
                  Hd V2 Yd Md Dd Y2 M2 D2) as [L _].
      now apply L. }
    destruct Hcase as [[-> [-> [Hl [M2 D2]]]] | [_ [M2 D2]]].
    + apply (Lt2 3 1 M2 D2). unfold triple_lt. destruct off; lia.
    + apply (Lt2 me de M2 D2). unfold triple_lt. destruct off; lia.
Qed.

Lemma X17_fullYearsSince_counts_addYears_witness :
  exists n d1,
    fullYearsSince {| value := 738011 |} {| value := 727054 |} = Ok (Int n)
    /\ 0 <= n
    /\ addYears {| value := 727054 |} (Int n) = Ok d1
    /\ value d1 <= value {| value := 738011 |}
    /\ (forall d2, addYears {| value := 727054 |} (Int (n + 1)) = Ok d2 ->
                   value {| value := 738011 |} < value d2).
Proof.
  apply (X17_fullYearsSince_counts_addYears
           {| value := 738011 |} {| value := 727054 |} 2020 8 9 1990 8 10).
  - unfold valid, MIN_VALUE, MAX_VALUE. cbn [value]. lia.
  - unfold valid, MIN_VALUE, MAX_VALUE. cbn [value]. lia.
  - vm_compute. reflexivity.
  - vm_compute. reflexivity.
  - vm_compute. reflexivity.
  - vm_compute. reflexivity.
  - vm_compute. reflexivity.
  - vm_compute. reflexivity.
  - cbn [value]. lia.
Defined.

(** ** The 400-year cycle *)

Lemma isLeapYear_period (y : Z) :
  0 <= y -> isLeapYear (Int (y + 400)) = isLeapYear (Int y).
Proof.
  intros H. rewrite !isLeapYear_Int.
  replace (Z.rem (y + 400) 4) with (Z.rem y 4)
    by (rewrite !Z.rem_mod_nonneg by lia; zdiv).
  replace (Z.rem (y + 400) 100) with (Z.rem y 100)
    by (rewrite !Z.rem_mod_nonneg by lia; zdiv).
  replace (Z.rem (y + 400) 400) with (Z.rem y 400)
    by (rewrite !Z.rem_mod_nonneg by lia; zdiv).
  reflexivity.
Qed.

Lemma jan1_period (y : Z) : jan1 (y + 400) = jan1 y + 146097.
Proof. unfold jan1. zdiv. Qed.

(** X18: the calendar repeats every 400 years, which are 146097 days or
    20871 weeks: [addYears(400)] of a date before the year 9600 is the date
    146097 days later, with the same month, day of the month, day of the
    week and day of the year, in a year that is a leap year exactly when
    the year of the date is. *)
Theorem X18_addYears_400_period (d : CalendarDate) (y m dd : Z) :
  valid d -> year d = Int y -> month d = Int m -> day d = Ok (Int dd) ->
  y <= 9599 ->
  exists d',
    addYears d (Int 400) = Ok d' /\ addDays d (Int 146097) = Ok d'
    /\ year d' = Int (y + 400) /\ month d' = Int m /\ day d' = Ok (Int dd)
    /\ dayOfWeek d' = dayOfWeek d /\ dayOfYear d' = dayOfYear d
    /\ isLeapYear (year d') = isLeapYear (year d).
Proof.
  intros Hv Ey Em Ed H96.
  destruct (getters_value d y m dd Hv Ey Em Ed) as [Hy [Hm [Hd Ev]]].
  pose proof (isLeapYear_period y ltac:(lia)) as Hl.
  pose proof (jan1_period y) as Hj.
  assert (Hd' : 1 <= dd <= monthLength (isLeapYear (Int (y + 400))) m)
    by (rewrite Hl; exact Hd).
  destruct (create_getters (y + 400) m dd ltac:(lia) Hm Hd')
    as [d' [E [V' [Y' [M' D']]]]].
  destruct (getters_value d' (y + 400) m dd V' Y' M' D') as [_ [_ [_ Ev']]].
  rewrite Hl, Hj in Ev'.
  assert (Evv : value d' = value d + 146097) by lia.
  exists d'. split.
  { rewrite (addYears_unfold d 400 y m dd Ey Em Ed).
    destruct ((m =? 2) && (dd =? 29) && negb (isLeapYear (Int (y + 400))))
      eqn:Ec; [| exact E].
    apply andb_prop in Ec. destruct Ec as [Ec Hn].
    apply andb_prop in Ec. destruct Ec as [E2 E29].
    apply Z.eqb_eq in E2, E29. apply negb_true_iff in Hn. subst m dd.
    rewrite Hn, monthLength_feb in Hd'. lia. }
  split.
  { unfold addDays. cbn [nadd]. rewrite <- Evv. destruct d' as [v'].
    apply new_CalendarDate_valid. exact V'. }
  split; [exact Y' |]. split; [exact M' |]. split; [exact D' |].
  split.
  { unfold dayOfWeek. rewrite Evv.
    unfold valid, MIN_VALUE in Hv.
    rewrite !Z.rem_mod_nonneg by lia. zdiv. }
  split.
  { destruct (dayOfYear_value d y m dd Hv Ey Em Ed) as [Eo _].
    destruct (dayOfYear_value d' (y + 400) m dd V' Y' M' D') as [Eo' _].
    rewrite Eo, Eo', Hl. reflexivity. }
  rewrite Y', Ey. exact Hl.
Qed.

Lemma X18_addYears_400_period_witness :
  exists d',
    addYears {| value := 730544 |} (Int 400) = Ok d'
    /\ addDays {| value := 730544 |} (Int 146097) = Ok d'
    /\ year d' = Int (2000 + 400) /\ month d' = Int 2 /\ day d' = Ok (Int 29)
    /\ dayOfWeek d' = dayOfWeek {| value := 730544 |}
    /\ dayOfYear d' = dayOfYear {| value := 730544 |}
    /\ isLeapYear (year d') = isLeapYear (year {| value := 730544 |}).
Proof.
  apply (X18_addYears_400_period {| value := 730544 |} 2000 2 29).
  - unfold valid, MIN_VALUE, MAX_VALUE. cbn [value]. lia.
  - vm_compute. reflexivity.
  - vm_compute. reflexivity.
  - vm_compute. reflexivity.
  - lia.
Defined.

(** ** The order of the printed forms *)

Lemma digit_ltb (a b : Z) :
  0 <= a <= 9 -> 0 <= b <= 9 -> (digit a <? digit b)%N = (a <? b).
Proof.
  intros Ha Hb. unfold digit.
  destruct (Z.ltb_spec a b); [apply N.ltb_lt | apply N.ltb_ge]; lia.
Qed.

Lemma string_ltb_digits (a1 b1 c1 e1 f1 g1 h1 i1 a2 b2 c2 e2 f2 g2 h2 i2 : Z) :
  0 <= a1 <= 9 -> 0 <= b1 <= 9 -> 0 <= c1 <= 9 -> 0 <= e1 <= 9 ->
  0 <= f1 <= 9 -> 0 <= g1 <= 9 -> 0 <= h1 <= 9 -> 0 <= i1 <= 9 ->
  0 <= a2 <= 9 -> 0 <= b2 <= 9 -> 0 <= c2 <= 9 -> 0 <= e2 <= 9 ->
  0 <= f2 <= 9 -> 0 <= g2 <= 9 -> 0 <= h2 <= 9 -> 0 <= i2 <= 9 ->
  string_ltb
    [digit a1; digit b1; digit c1; digit e1; 45%N; digit f1; digit g1; 45%N;
     digit h1; digit i1]
    [digit a2; digit b2; digit c2; digit e2; 45%N; digit f2; digit g2; 45%N;
     digit h2; digit i2] = true
  <-> triple_lt (1000 * a1 + 100 * b1 + 10 * c1 + e1) (10 * f1 + g1)
                (10 * h1 + i1)
                (1000 * a2 + 100 * b2 + 10 * c2 + e2) (10 * f2 + g2)
                (10 * h2 + i2).
Proof.
  intros. cbn [string_ltb]. rewrite !digit_ltb by assumption.
  change (45 <? 45)%N with false. cbv iota. unfold triple_lt.
  repeat match goal with
         | |- context [?x <? ?y] => destruct (Z.ltb_spec x y)
         end;
    (split; [intros Hs; try discriminate Hs; lia | intros Hs; try reflexivity; lia]).
Qed.

Lemma iso_digits (y m dd : Z) :
  0 <= y <= 9999 -> 0 <= m <= 99 -> 0 <= dd <= 99 ->
  exists a b c e f g h i,
    (0 <= a <= 9 /\ 0 <= b <= 9 /\ 0 <= c <= 9 /\ 0 <= e <= 9)
    /\ (0 <= f <= 9 /\ 0 <= g <= 9 /\ 0 <= h <= 9 /\ 0 <= i <= 9)
    /\ y = 1000 * a + 100 * b + 10 * c + e /\ m = 10 * f + g
    /\ dd = 10 * h + i
    /\ iso y m dd
       = [digit a; digit b; digit c; digit e; 45%N; digit f; digit g; 45%N;
          digit h; digit i].
Proof.
  intros Hy Hm Hd.
  exists (y / 1000), (y / 100 mod 10), (y / 10 mod 10), (y mod 10),
    (m / 10), (m mod 10), (dd / 10), (dd mod 10).
  split; [zdiv |]. split; [zdiv |]. split; [zdiv |]. split; [zdiv |].
  split; [zdiv |]. reflexivity.
Qed.

Lemma string_ltb_iso (y1 m1 d1 y2 m2 d2 : Z) :
  0 <= y1 <= 9999 -> 0 <= m1 <= 99 -> 0 <= d1 <= 99 ->
  0 <= y2 <= 9999 -> 0 <= m2 <= 99 -> 0 <= d2 <= 99 ->
  string_ltb (iso y1 m1 d1) (iso y2 m2 d2) = true
  <-> triple_lt y1 m1 d1 y2 m2 d2.
Proof.
  intros Hy1 Hm1 Hd1 Hy2 Hm2 Hd2.
  destruct (iso_digits y1 m1 d1 Hy1 Hm1 Hd1)
    as [a1 [b1 [c1 [e1 [f1 [g1 [h1 [i1 [[? [? [? ?]]] [[? [? [? ?]]]
          [-> [-> [-> ->]]]]]]]]]]]]].
  destruct (iso_digits y2 m2 d2 Hy2 Hm2 Hd2)
    as [a2 [b2 [c2 [e2 [f2 [g2 [h2 [i2 [[? [? [? ?]]] [[? [? [? ?]]]
          [-> [-> [-> ->]]]]]]]]]]]]].
  apply string_ltb_digits; assumption.
Qed.

Lemma string_ltb_irrefl (s : jsstring) : string_ltb s s = false.
Proof.
  induction s as [| c s IH]; [reflexivity |].
  cbn [string_ltb]. rewrite N.ltb_irrefl. exact IH.
Qed.

(** X19: the printed forms sort as the dates do.  [toString] and [toJSON]
    print a valid date as the same string, and for two valid dates the
    string of the first is below the string of the second, in the order of
    the UTF-16 code units, exactly when the first date is before the second;
    the strings are equal exactly when the dates are. *)
Theorem X19_toString_sorts_as_dates (a b : CalendarDate) :
  valid a -> valid b ->
  exists sa sb,
    toString a = Ok sa /\ toJSON a = Ok sa
    /\ toString b = Ok sb /\ toJSON b = Ok sb
    /\ (string_ltb sa sb = true <-> isBefore a b = true)
    /\ (sa = sb <-> equals a b = true).
Proof.
  intros Ha Hb.
  destruct (getters_exist a Ha) as [ya [ma [da [Ya [Ma Da]]]]].
  destruct (getters_exist b Hb) as [yb [mb [db [Yb [Mb Db]]]]].
  destruct (getters_value a ya ma da Ha Ya Ma Da) as [Hya [Hma [Hda _]]].
  destruct (getters_value b yb mb db Hb Yb Mb Db) as [Hyb [Hmb [Hdb _]]].
  pose proof (monthLength_bounds (isLeapYear (Int ya)) ma Hma) as La.
  pose proof (monthLength_bounds (isLeapYear (Int yb)) mb Hmb) as Lb.
  destruct (value_lt_iff a b ya ma da yb mb db Ha Hb Ya Ma Da Yb Mb Db)
    as [Hlt Heq].
  pose proof (string_ltb_iso ya ma da yb mb db ltac:(lia) ltac:(lia)
                ltac:(lia) ltac:(lia) ltac:(lia) ltac:(lia)) as Hs.
  pose proof (string_ltb_iso yb mb db ya ma da ltac:(lia) ltac:(lia)
                ltac:(lia) ltac:(lia) ltac:(lia) ltac:(lia)) as Hs'.
  exists (iso ya ma da), (iso yb mb db).
  pose proof (toString_iso a ya ma da Ha Ya Ma Da) as Ta.
  pose proof (toString_iso b yb mb db Hb Yb Mb Db) as Tb.
  split; [exact Ta |]. split; [exact Ta |].
  split; [exact Tb |]. split; [exact Tb |].
  unfold isBefore, equals. rewrite Z.ltb_lt, Z.eqb_eq. split.
  - rewrite Hs, Hlt. reflexivity.
  - rewrite Heq. split.
    + intros E.
      assert (N1 : ~ triple_lt ya ma da yb mb db).
      { rewrite <- Hs, E, string_ltb_irrefl. discriminate. }
      assert (N2 : ~ triple_lt yb mb db ya ma da).
      { rewrite <- Hs', E, string_ltb_irrefl. discriminate. }
      unfold triple_lt in N1, N2. lia.
    + intros [-> [-> ->]]. reflexivity.
Qed.

Lemma X19_toString_sorts_as_dates_witness :
  exists sa sb,
    toString {| value := 738011 |} = Ok sa
    /\ toJSON {| value := 738011 |} = Ok sa
    /\ toString {| value := 727054 |} = Ok sb
    /\ toJSON {| value := 727054 |} = Ok sb
    /\ (string_ltb sa sb = true
        <-> isBefore {| value := 738011 |} {| value := 727054 |} = true)
    /\ (sa = sb <-> equals {| value := 738011 |} {| value := 727054 |} = true).
Proof.
  apply (X19_toString_sorts_as_dates
           {| value := 738011 |} {| value := 727054 |}).
  - unfold valid, MIN_VALUE, MAX_VALUE. cbn [value]. lia.
  - unfold valid, MIN_VALUE, MAX_VALUE. cbn [value]. lia.
Defined.

(** ** The invariant of the class *)

Lemma create_valid (a b c : num) (d : CalendarDate) :
  create a b c = Ok d -> valid d.
Proof.
  unfold create. destruct (tripletToDaysValue a b c) as [v | e];
    cbn [bind]; [| discriminate].
  intros E. exact (proj2 (new_CalendarDate_Ok v d E)).
Qed.

Lemma addYears_valid (d d' : CalendarDate) (n : num) :
  addYears d n = Ok d' -> valid d'.
Proof.
  unfold addYears. destruct (day d) as [dd | e]; cbn [bind].
  - destruct (neqb (month d) (Int 2));
      [destruct (neqb dd (Int 29) && negb (isLeapYear (nadd (year d) n))) |];
      apply create_valid.
  - destruct (neqb (month d) (Int 2)); discriminate.
Qed.

Lemma addMonths_valid (d d' : CalendarDate) (n : num) :
  addMonths d n = Ok d' -> valid d'.
Proof.
  unfold addMonths. destruct (day d) as [dd | e]; cbn [bind];
    [apply create_valid | discriminate].
Qed.

Lemma fromString_valid (s : jsstring) (d : CalendarDate) :
  fromString s = Some (Ok d) -> valid d.
Proof.
  unfold fromString.
  destruct (if (List.length s =? 10)%nat && charAt_is s 4 45
               && charAt_is s 7 45
            then (extractInt s 5 2, extractInt s 8 2)
            else if (List.length s =? 8)%nat
                 then (extractInt s 4 2, extractInt s 6 2)
                 else (Some NaN, Some NaN)) as [m dd].
  destruct (isNaN_opt (extractInt s 0 4) || isNaN_opt m || isNaN_opt dd);
    [discriminate |].
  destruct (extractInt s 0 4) as [y' |]; [| discriminate].
  destruct m as [m' |]; [| discriminate].
  destruct dd as [d0 |]; [| discriminate].
  intros E. injection E as E. exact (create_valid y' m' d0 d E).
Qed.

Lemma part000_fromString_valid (s : jsstring) (d : CalendarDate) :
  Part000.fromString s = Ok d -> valid d.
Proof.
  unfold Part000.fromString.
  match goal with
  | |- (let '(m, dd) := ?c in _) = _ -> _ => destruct c as [m dd]
  end.
  destruct (isNaN (Part000.extractInt s 0 4) || isNaN m || isNaN dd);
    [discriminate |].
  apply create_valid.
Qed.

(** X20: the invariant of the class, for numeric arguments that are NaN
    or integers within 10^9 of zero and for strings whose three fields
    [Number] reads as NaN or as whole numbers of size at most 2^53 (the
    arguments this development covers; fractions are outside it).  A date that [create],
    [fromString] (of either variant), [addDays], [addMonths] or [addYears]
    returns on such arguments holds a value from 366 to 3652424, and its
    getters read a year from 1 to 9999, a month from 1 to 12 and a day from
    1 to the length of that month: none of them is NaN and [day] does not
    throw. *)
Theorem X20_results_keep_the_invariant
    (d d' : CalendarDate) (a b c : num) (s : jsstring) :
  small a -> small b -> small c ->
  create a b c = Ok d' \/ fromString s = Some (Ok d')
  \/ Part000.fromString s = Ok d' \/ addDays d a = Ok d'
  \/ addMonths d a = Ok d' \/ addYears d a = Ok d' ->
  366 <= value d' <= 3652424
  /\ exists y m dd,
       year d' = Int y /\ month d' = Int m /\ day d' = Ok (Int dd)
       /\ 1 <= y <= 9999 /\ 1 <= m <= 12
       /\ 1 <= dd <= daysInMonth (Int y) (Int m).
Proof.
  intros _ _ _ H.
  assert (V : valid d').
  { destruct H as [H | [H | [H | [H | [H | H]]]]].
    - exact (create_valid a b c d' H).
    - exact (fromString_valid s d' H).
    - exact (part000_fromString_valid s d' H).
    - exact (proj2 (new_CalendarDate_Ok _ d' H)).
    - exact (addMonths_valid d d' a H).
    - exact (addYears_valid d d' a H). }
  split; [exact V |].
  destruct (getters_exist d' V) as [y [m [dd [Y [M D]]]]].
  destruct (getters_value d' y m dd V Y M D) as [Hy [Hm [Hd _]]].
  exists y, m, dd. rewrite daysInMonth_Int. tauto.
Qed.

Lemma X20_results_keep_the_invariant_witness :
  366 <= value {| value := 730544 |} <= 3652424
  /\ exists y m dd,
       year {| value := 730544 |} = Int y
       /\ month {| value := 730544 |} = Int m
       /\ day {| value := 730544 |} = Ok (Int dd)
       /\ 1 <= y <= 9999 /\ 1 <= m <= 12
       /\ 1 <= dd <= daysInMonth (Int y) (Int m).
Proof.
  apply (X20_results_keep_the_invariant
           {| value := 730119 |} {| value := 730544 |}
           (Int 14) NaN NaN (js "2000-02-29")).
  - cbn [small]. lia.
  - exact I.
  - exact I.
  - right. right. right. right. left. vm_compute. reflexivity.
Defined.

(** ** The month tables *)

(** X21: the three encodings of the month lengths agree.  For a month from
    1 to 12, [daysInMonth] (the bit test, with February apart) is the
    entry of the familiar list 31, 28 or 29, 31, 30, ...; the entry of
    [MONTH_SUMS_NORMAL_YEAR] is the sum of the lengths of the months before
    it in a common year; and the lookup string of the year has one
    character per day of the year. *)
Theorem X21_month_tables_agree (y m : Z) :
  1 <= m <= 12 ->
  daysInMonth (Int y) (Int m)
  = nth (Z.to_nat (m - 1)) (monthLengths (isLeapYear (Int y))) 0
  /\ index MONTH_SUMS_NORMAL_YEAR (Int m)
     = Int (fold_right Z.add 0 (firstn (Z.to_nat (m - 1)) (monthLengths false)))
  /\ Z.of_nat (List.length (table (isLeapYear (Int y))))
     = fold_right Z.add 0 (monthLengths (isLeapYear (Int y))).
Proof.
  intros H. rewrite daysInMonth_Int.
  generalize (isLeapYear (Int y)). intros leap.
  split; [| split].
  - each_month m H; destruct leap; reflexivity.
  - each_month m H; reflexivity.
  - destruct leap; vm_compute; reflexivity.
Qed.

Lemma X21_month_tables_agree_witness :
  daysInMonth (Int 1900) (Int 2)
  = nth (Z.to_nat (2 - 1)) (monthLengths (isLeapYear (Int 1900))) 0
  /\ index MONTH_SUMS_NORMAL_YEAR (Int 2)
     = Int (fold_right Z.add 0 (firstn (Z.to_nat (2 - 1)) (monthLengths false)))
  /\ Z.of_nat (List.length (table (isLeapYear (Int 1900))))
     = fold_right Z.add 0 (monthLengths (isLeapYear (Int 1900))).
Proof.
  apply (X21_month_tables_agree 1900 2). lia.
Defined.

(** ** The two parsers on eight characters *)

(** X22: on every string of eight ASCII digits the two variants of
    [fromString] do the same, the same date or the same error; and on
    every 8-character string that the variant of part_000 turns into a
    date, the variant of CalendarDate.ts builds the same date. *)
Theorem X22_variants_agree_on_digits :
  (forall s,
      List.length s = 8%nat -> forallb isDigit s = true ->
      fromString s = Some (Part000.fromString s)
      /\ same_outcome (fromString s) (Part000.fromString s))
  /\ (forall s d,
        List.length s = 8%nat -> Part000.fromString s = Ok d ->
        fromString s = Some (Ok d)).
Proof.
  assert (Hdig : forall s,
             List.length s = 8%nat -> forallb isDigit s = true ->
             fromString s = Some (Part000.fromString s)).
  { intros s Hl Hd.
    destruct (digits8_basic s Hl Hd) as [y [m [dd [Hy [Hm [Hdd ->]]]]]].
    rewrite fromString_basic, part000_fromString_basic by assumption.
    reflexivity. }
  split.
  - intros s Hl Hd. split; [now apply Hdig |].
    rewrite (Hdig s Hl Hd). unfold same_outcome.
    destruct (Part000.fromString s) as [d | e].
    + left. exists d. split; reflexivity.
    + right. exists e, e. split; reflexivity.
  - intros s d Hl E.
    destruct (list_eq_dec N.eq_dec (padStart0 (NumberToString (parseInt s)) 8) s)
      as [Et | Hno] eqn:Edec.
    + destruct (part000_test_shape s Hl Et) as [Hd | [ds [-> Hd]]].
      * rewrite (Hdig s Hl Hd). now rewrite E.
      * exfalso. apply (part000_minus_rejected ds d); [| exact Hd | exact E].
        cbn [List.length] in Hl. lia.
    + exfalso. unfold Part000.fromString in E. rewrite Edec, Hl in E.
      cbn [Nat.eqb andb isNaN] in E. rewrite orb_true_r in E. discriminate.
Qed.

Lemma X22_variants_agree_on_digits_witness :
  (fromString (js "20160229") = Some (Part000.fromString (js "20160229"))
   /\ same_outcome (fromString (js "20160229"))
                   (Part000.fromString (js "20160229")))
  /\ fromString (js "20160229") = Some (Ok {| value := 736388 |}).
Proof.
  split.
  - apply (proj1 X22_variants_agree_on_digits (js "20160229")).
    + reflexivity.
    + vm_compute. reflexivity.
  - apply (proj2 X22_variants_agree_on_digits (js "20160229")).
    + reflexivity.
    + vm_compute. reflexivity.
Defined.
